(** * A shallow embedding of the Strava API client (tomkp/strava)

    The client class of the repository is modelled as a record of its two
    mutable fields ([tokens], [rateLimitInfo]) threaded through a state and
    exception monad.  Everything the class does not own -- the clock, the
    network behind [fetch] and the [onTokenRefresh] callback -- is an
    environment acting on a world of type [W]; the model logs each network
    call and each callback invocation in a trace.

    Part I holds the model, Part II the definitions the statements are
    written with, Part III the lemmas and theorems. *)

From Stdlib Require Import ZArith NArith List String Ascii Bool Lia.
From Stdlib Require Import DecimalString DecimalN DecimalPos.
Import ListNotations.

Open Scope string_scope.
Open Scope Z_scope.

(* ================================================================== *)
(** * Part I: the model                                               *)
(* ================================================================== *)

(** ** JavaScript primitives used by the client *)

Module Js.

(** A JavaScript number as [Number(string)] produces it: the mathematical
    value [(-1)^negative * mantissa * 10^exponent] of the literal.  The
    engine then rounds that value to the nearest double; integers below
    2^53 are not changed by the rounding. *)
Inductive number : Type :=
| NaN
| Infinity (negative : bool)
| Finite (negative : bool) (mantissa : N) (exponent : Z).

Definition of_N (n : N) : number := Finite false n 0.

Definition code (c : ascii) : nat := nat_of_ascii c.

(** StrWhiteSpaceChar, for strings whose characters are code points below
    256 (header values are byte strings): TAB, LF, VT, FF, CR, SP, NBSP. *)
Definition is_white (c : ascii) : bool :=
  let n := code c in
  ((9 <=? n) && (n <=? 13) || (n =? 32) || (n =? 160))%nat.

Definition is_digit (c : ascii) : bool :=
  let n := code c in ((48 <=? n) && (n <=? 57))%nat.

Definition digit_value (c : ascii) : N := N.of_nat (code c - 48).

(** Value of a hexadecimal digit, [None] for another character. *)
Definition hex_value (c : ascii) : option N :=
  let n := code c in
  if ((48 <=? n) && (n <=? 57))%nat then Some (N.of_nat (n - 48))
  else if ((97 <=? n) && (n <=? 102))%nat then Some (N.of_nat (n - 87))
  else if ((65 <=? n) && (n <=? 70))%nat then Some (N.of_nat (n - 55))
  else None.

Fixpoint drop_white (l : list ascii) : list ascii :=
  match l with
  | c :: r => if is_white c then drop_white r else l
  | [] => []
  end.

Definition trim (l : list ascii) : list ascii :=
  rev (drop_white (rev (drop_white l))).

(** The longest prefix of decimal digits, and what follows it. *)
Fixpoint span_digits (l : list ascii) : list ascii * list ascii :=
  match l with
  | c :: r =>
      if is_digit c then let (ds, rest) := span_digits r in (c :: ds, rest)
      else ([], l)
  | [] => ([], [])
  end.

Definition decimal_value (ds : list ascii) : N :=
  fold_left (fun acc c => (10 * acc + digit_value c)%N) ds 0%N.

(** Digits in base [radix], all of which must be valid and at least one
    present. *)
Fixpoint radix_value (radix : N) (acc : N) (l : list ascii) : option N :=
  match l with
  | [] => Some acc
  | c :: r =>
      match hex_value c with
      | Some d => if (d <? radix)%N then radix_value radix (radix * acc + d)%N r
                  else None
      | None => None
      end
  end.

Definition is_char (c lower upper : ascii) : bool :=
  Ascii.eqb c lower || Ascii.eqb c upper.

(** NonDecimalIntegerLiteral: [0x], [0o] and [0b] literals take no sign.
    The outer [option] tells whether the string has such a prefix. *)
Definition NonDecimalIntegerLiteral (l : list ascii) : option number :=
  match l with
  | z :: p :: ds =>
      if negb (code z =? 48)%nat then None
      else
        let radix :=
          if is_char p "x"%char "X"%char then Some 16%N
          else if is_char p "o"%char "O"%char then Some 8%N
          else if is_char p "b"%char "B"%char then Some 2%N
          else None in
        match radix with
        | None => None
        | Some rx =>
            match ds with
            | [] => Some NaN
            | _ => match radix_value rx 0%N ds with
                   | Some n => Some (of_N n)
                   | None => Some NaN
                   end
            end
        end
  | _ => None
  end.

(** ExponentPart, or nothing: the decimal exponent it denotes. *)
Definition ExponentPart (l : list ascii) : option Z :=
  match l with
  | [] => Some 0
  | c :: r =>
      if is_char c "e"%char "E"%char then
        let '(neg, r') :=
          match r with
          | s :: t => if Ascii.eqb s "-"%char then (true, t)
                      else if Ascii.eqb s "+"%char then (false, t)
                      else (false, r)
          | [] => (false, r)
          end in
        let (ds, rest) := span_digits r' in
        match ds, rest with
        | _ :: _, [] =>
            let v := Z.of_N (decimal_value ds) in
            Some (if neg : bool then - v else v)
        | _, _ => None
        end
      else None
  end.

(** StrUnsignedDecimalLiteral other than [Infinity]. *)
Definition StrUnsignedDecimalLiteral (neg : bool) (l : list ascii) : number :=
  let (ip, r1) := span_digits l in
  match r1 with
  | c :: r2 =>
      if Ascii.eqb c "."%char then
        let (fp, r3) := span_digits r2 in
        match ip, fp with
        | [], [] => NaN
        | _, _ =>
            match ExponentPart r3 with
            | Some e => Finite neg (decimal_value (ip ++ fp))
                                   (e - Z.of_nat (List.length fp))
            | None => NaN
            end
        end
      else
        match ip with
        | [] => NaN
        | _ => match ExponentPart r1 with
               | Some e => Finite neg (decimal_value ip) e
               | None => NaN
               end
        end
  | [] =>
      match ip with
      | [] => NaN
      | _ => Finite neg (decimal_value ip) 0
      end
  end.

Definition StrDecimalLiteral (l : list ascii) : number :=
  let '(neg, u) :=
    match l with
    | s :: t => if Ascii.eqb s "-"%char then (true, t)
                else if Ascii.eqb s "+"%char then (false, t)
                else (false, l)
    | [] => (false, l)
    end in
  if (string_of_list_ascii u =? "Infinity")%string then Infinity neg
  else StrUnsignedDecimalLiteral neg u.

(** [Number(s)] for a string [s] (the StringToNumber conversion). *)
Definition Number (s : string) : number :=
  let t := trim (list_ascii_of_string s) in
  match t with
  | [] => of_N 0
  | _ => match NonDecimalIntegerLiteral t with
         | Some n => n
         | None => StrDecimalLiteral t
         end
  end.

(** [s.split(sep)] for a one-character separator: never the empty array. *)
Fixpoint split (sep : ascii) (s : string) : list string :=
  match s with
  | EmptyString => [EmptyString]
  | String c r =>
      if Ascii.eqb c sep then EmptyString :: split sep r
      else match split sep r with
           | h :: t => String c h :: t
           | [] => [String c EmptyString]
           end
  end.

(** Truthiness of a string: the empty string is falsy. *)
Definition truthy (s : string) : bool := negb (s =? "")%string.

(** [s.includes(sub)]. *)
Fixpoint includes (sub s : string) : bool :=
  prefix sub s ||
  match s with
  | EmptyString => false
  | String _ r => includes sub r
  end.

(** [String(n)] for an integer [n] (integers of magnitude below 10^21 are
    printed in plain decimal notation). *)
Definition decimal_digits (n : N) : string :=
  NilEmpty.string_of_uint (N.to_uint n).

Definition String_of_int (z : Z) : string :=
  if z <? 0 then "-" ++ decimal_digits (Z.abs_N z)
  else decimal_digits (Z.abs_N z).

Definition lower_char (c : ascii) : ascii :=
  let n := code c in
  if ((65 <=? n) && (n <=? 90))%nat then ascii_of_nat (n + 32) else c.

Fixpoint toLowerCase (s : string) : string :=
  match s with
  | EmptyString => EmptyString
  | String c r => String (lower_char c) (toLowerCase r)
  end.

End Js.

(** ** Response headers *)

Module Headers.

(** A Fetch [Headers] object: a list of name/value pairs, names compared
    without regard to case. *)
Definition t : Type := list (string * string).

Fixpoint join (vs : list string) : string :=
  match vs with
  | [] => ""
  | [v] => v
  | v :: r => v ++ ", " ++ join r
  end.

Definition values (name : string) (h : t) : list string :=
  map snd
    (filter (fun kv => (Js.toLowerCase (fst kv) =? Js.toLowerCase name)%string) h).

(** [headers.get(name)]: [null] when no header has that name, otherwise the
    values of all headers of that name joined by a comma and a space. *)
Definition get (name : string) (h : t) : option string :=
  match values name h with
  | [] => None
  | vs => Some (join vs)
  end.

End Headers.

(** ** Rate limit information (types.ts) *)

(** A field typed [number] holds [undefined] when the destructured array is
    too short; [None] stands for [undefined]. *)
Record RateLimitWindow : Type := {
  usage : option Js.number;
  limit : option Js.number
}.

Record StravaRateLimitInfo : Type := {
  shortTerm : RateLimitWindow;
  longTerm : RateLimitWindow
}.

(** [const [a, b] = header.split(',').map(Number)] *)
Definition number_pair (header : string) : option Js.number * option Js.number :=
  let parts := map Js.Number (Js.split "," header) in
  (nth_error parts 0, nth_error parts 1).

(** [updateRateLimitInfo], as a function of the held information. *)
Definition updateRateLimitInfo_pure (headers : Headers.t)
    (held : option StravaRateLimitInfo) : option StravaRateLimitInfo :=
  let limitHeader := Headers.get "x-ratelimit-limit" headers in
  let usageHeader := Headers.get "x-ratelimit-usage" headers in
  match limitHeader, usageHeader with
  | Some lh, Some uh =>
      if Js.truthy lh && Js.truthy uh then
        let '(shortTermLimit, longTermLimit) := number_pair lh in
        let '(shortTermUsage, longTermUsage) := number_pair uh in
        Some {| shortTerm := {| usage := shortTermUsage; limit := shortTermLimit |};
                longTerm := {| usage := longTermUsage; limit := longTermLimit |} |}
      else held
  | _, _ => held
  end.

(** ** URLSearchParams *)

Module URLSearchParams.

(** The list of name/value pairs, in the order they were appended.  Strings
    are sequences of UTF-8 bytes here, which is what the serializer
    percent-encodes. *)
Definition t : Type := list (string * string).

Definition append (name value : string) (p : t) : t := (p ++ [(name, value)])%list.

Definition is_alnum (c : ascii) : bool :=
  let n := Js.code c in
  ((48 <=? n) && (n <=? 57) || (65 <=? n) && (n <=? 90)
   || (97 <=? n) && (n <=? 122))%nat.

(** Bytes the application/x-www-form-urlencoded serializer leaves alone. *)
Definition is_plain (c : ascii) : bool :=
  is_alnum c || Ascii.eqb c "*" || Ascii.eqb c "-" || Ascii.eqb c "."
  || Ascii.eqb c "_".

Definition hex_digit (n : nat) : ascii :=
  if (n <? 10)%nat then ascii_of_nat (48 + n) else ascii_of_nat (55 + n).

Definition encode_byte (c : ascii) : string :=
  if is_plain c then String c ""
  else if Ascii.eqb c " " then "+"
  else String "%" (String (hex_digit (Js.code c / 16))
                  (String (hex_digit (Js.code c mod 16)) "")).

Fixpoint encode (s : string) : string :=
  match s with
  | EmptyString => ""
  | String c r => encode_byte c ++ encode r
  end.

Definition encode_pair (kv : string * string) : string :=
  encode (fst kv) ++ "=" ++ encode (snd kv).

(** [searchParams.toString()] *)
Fixpoint toString (p : t) : string :=
  match p with
  | [] => ""
  | [kv] => encode_pair kv
  | kv :: r => encode_pair kv ++ "&" ++ toString r
  end.

End URLSearchParams.

(** ** Plain objects with string values *)

Module Obj.

(** A [Record<string, string>]: properties in insertion order, each key
    once. *)
Definition t : Type := list (string * string).

Fixpoint set (k v : string) (o : t) : t :=
  match o with
  | [] => [(k, v)]
  | (k', v') :: r => if (k' =? k)%string then (k, v) :: r else (k', v') :: set k v r
  end.

Fixpoint get (k : string) (o : t) : option string :=
  match o with
  | [] => None
  | (k', v') :: r => if (k' =? k)%string then Some v' else get k r
  end.

(** [Object.assign(target, source)], also the spread [{...target, ...source}]. *)
Definition assign (target source : t) : t :=
  fold_left (fun o kv => set (fst kv) (snd kv) o) source target.

End Obj.

(** ** Payload types (types.ts) *)

(** Of the athlete and activity records only the identifying fields are
    kept: the client passes these payloads on without inspecting them. *)
Record StravaAthlete : Type := {
  athlete_id : Z;
  username : string
}.

Record StravaTokenResponse : Type := {
  token_type : string;
  expires_at : Z;
  expires_in : Z;
  refresh_token : string;
  access_token : string;
  athlete : StravaAthlete
}.

(** The numbers of these payloads are whole seconds, kept as integers. *)
Record StravaTokens : Type := {
  accessToken : string;
  refreshToken : string;
  expiresAt : Z
}.

Record StravaActivity : Type := {
  activity_id : Z;
  activity_name : string
}.

Record GetActivitiesOptions : Type := {
  before : option Z;
  after : option Z;
  page : option Z;
  per_page : option Z
}.

(** What [response.json()] can resolve to. *)
Inductive Json : Type :=
| JTokenResponse (r : StravaTokenResponse)
| JActivities (l : list StravaActivity)
| JRaw (text : string).

(** ** Thrown values *)

Inductive error_class : Type := NotAnError | PlainError | TypeError.

(** Modelled from the spec: errors.ts is not among the sources; the error
    classes are the taxonomy of section 7 of the specification.  The three
    kinds the client constructs itself carry their message, and
    [StravaHttpError] stands for the value of [parseStravaError] on the
    given status, body, headers and context.  None of them is a
    [TypeError] or has the name [AbortError]. *)
Inductive exn : Type :=
| Thrown (cls : error_class) (name message : string)
| StravaNetworkError (message : string)
| StravaTokenRefreshError (message : string)
| StravaValidationError (message : string)
| StravaHttpError (status : Z) (data : Json) (headers : Headers.t)
                  (context : option string)
| IllTyped.

(** Modelled from the spec: [parseStravaError] is defined in errors.ts,
    which is not among the sources; its result is kept symbolic. *)
Definition parseStravaError (status : Z) (data : Json) (headers : Headers.t)
    (context : option string) : exn :=
  StravaHttpError status data headers context.

(** [error instanceof Error && error.name === 'AbortError'] *)
Definition isAbortError (e : exn) : bool :=
  match e with
  | Thrown PlainError name _ | Thrown TypeError name _ => (name =? "AbortError")%string
  | _ => false
  end.

(** [error instanceof TypeError && error.message.includes('fetch')] *)
Definition isFetchTypeError (e : exn) : bool :=
  match e with
  | Thrown TypeError _ message => Js.includes "fetch" message
  | _ => false
  end.

Inductive result (A : Type) : Type :=
| Ok (a : A)
| Throw (e : exn).
Arguments Ok {A} a.
Arguments Throw {A} e.

(** ** Requests and responses *)

Inductive Method : Type := GET | POST.

Module RequestInit.
(** The second argument of [fetch].  [body] is the object handed to
    [JSON.stringify]. *)
Record t : Type := {
  method : Method;
  headers : Obj.t;
  body : option Obj.t
}.
End RequestInit.

Module Response.
(** [json] is the outcome of the one call of [response.json()]. *)
Record t : Type := {
  ok : bool;
  status : Z;
  headers : Headers.t;
  json : result Json
}.
End Response.

Inductive param : Type :=
| PString (s : string)
| PNumber (n : Z)
| PBoolean (b : bool)
| PUndefined.

(** [String(value)] for a defined parameter value. *)
Definition String_of_param (v : param) : string :=
  match v with
  | PString s => s
  | PNumber n => Js.String_of_int n
  | PBoolean true => "true"
  | PBoolean false => "false"
  | PUndefined => "undefined"
  end.

Definition optional_number (o : option Z) : param :=
  match o with
  | Some n => PNumber n
  | None => PUndefined
  end.

Module RequestOptions.
(** The [options] argument of [request].  [params] lists the properties of
    the object in the order [Object.entries] yields them. *)
Record t : Type := {
  params : option (list (string * param));
  body : option Obj.t;
  headers : option Obj.t;
  baseUrl : option string;
  skipAuth : option bool
}.

Definition empty : t :=
  {| params := None; body := None; headers := None; baseUrl := None;
     skipAuth := None |}.
End RequestOptions.

(** What the client does to its surroundings, in order. *)
Inductive event : Type :=
| Fetched (url : string) (init : RequestInit.t)
| Notified (tokens : StravaTokens).

Definition STRAVA_API_BASE_URL : string := "https://www.strava.com/api/v3".
Definition STRAVA_OAUTH_BASE_URL : string := "https://www.strava.com/oauth".
Definition DEFAULT_REFRESH_BUFFER : Z := 600.

(** [a || d] for an optional number [a]: [undefined] and [0] are falsy. *)
Definition number_or (a : option Z) (d : Z) : Z :=
  match a with
  | Some n => if n =? 0 then d else n
  | None => d
  end.

(** The type assertions [as T] on a parsed body.  A body of another shape
    is outside the typing of the source; the model throws [IllTyped]
    there. *)
Definition as_void (j : Json) : result unit := Ok tt.

Definition as_activities (j : Json) : result (list StravaActivity) :=
  match j with
  | JActivities l => Ok l
  | _ => Throw IllTyped
  end.

Definition as_token_response (j : Json) : result StravaTokenResponse :=
  match j with
  | JTokenResponse r => Ok r
  | _ => Throw IllTyped
  end.

Definition tokens_of_response (data : StravaTokenResponse) : StravaTokens :=
  {| accessToken := access_token data;
     refreshToken := refresh_token data;
     expiresAt := expires_at data |}.

(** The loop of [request] over [Object.entries(options.params)]. *)
Definition searchParams_of (params : list (string * param)) : URLSearchParams.t :=
  fold_left
    (fun searchParams kv =>
       match snd kv with
       | PUndefined => searchParams
       | value => URLSearchParams.append (fst kv) (String_of_param value) searchParams
       end)
    params [].

(** The URL [request] fetches. *)
Definition request_url (path : string) (options : RequestOptions.t) : string :=
  let baseUrl :=
    match RequestOptions.baseUrl options with
    | Some b => b
    | None => STRAVA_API_BASE_URL
    end in
  let url := baseUrl ++ path in
  match RequestOptions.params options with
  | Some params =>
      let queryString := URLSearchParams.toString (searchParams_of params) in
      if Js.truthy queryString then url ++ "?" ++ queryString else url
  | None => url
  end.

(** ** The client *)

(** The surroundings of a client: the clock behind [Date.now()] (in
    milliseconds) and the network behind [fetch], each acting on the world.
    A call of [fetch] that rejects (a timeout aborts it with an
    [AbortError]) is a [Throw]. *)
Record Environment (W : Type) : Type := {
  date_now : W -> Z * W;
  fetch : string -> RequestInit.t -> W -> result Response.t * W
}.
Arguments date_now {W} _ _.
Arguments fetch {W} _ _ _ _.

(** [this.config] after the constructor ran.  The callback is an observer
    of the world that may throw; it neither calls back into the client nor
    changes the token object it is given. *)
Record Config (W : Type) : Type := {
  clientId : string;
  clientSecret : string;
  redirectUri : string;
  autoRefresh : bool;
  refreshBuffer : Z;
  onTokenRefresh : StravaTokens -> W -> result unit * W
}.
Arguments clientId {W} _.
Arguments clientSecret {W} _.
Arguments redirectUri {W} _.
Arguments autoRefresh {W} _.
Arguments refreshBuffer {W} _.
Arguments onTokenRefresh {W} _ _ _.

(** The argument of the constructor. *)
Record StravaClientConfig (W : Type) : Type := {
  config_clientId : string;
  config_clientSecret : string;
  config_redirectUri : option string;
  config_autoRefresh : option bool;
  config_refreshBuffer : option Z;
  config_onTokenRefresh : option (StravaTokens -> W -> result unit * W)
}.
Arguments config_clientId {W} _.
Arguments config_clientSecret {W} _.
Arguments config_redirectUri {W} _.
Arguments config_autoRefresh {W} _.
Arguments config_refreshBuffer {W} _.
Arguments config_onTokenRefresh {W} _.

(** The mutable fields of a client, the trace of what it did so far, and
    the world it runs in. *)
Record Client (W : Type) : Type := {
  tokens : option StravaTokens;
  rateLimitInfo : option StravaRateLimitInfo;
  trace : list event;
  world : W
}.
Arguments tokens {W} _.
Arguments rateLimitInfo {W} _.
Arguments trace {W} _.
Arguments world {W} _.

Definition constructor {W : Type} (config : StravaClientConfig W) : Config W :=
  {| clientId := config_clientId config;
     clientSecret := config_clientSecret config;
     redirectUri := match config_redirectUri config with
                    | Some u => u
                    | None => ""
                    end;
     autoRefresh := match config_autoRefresh config with
                    | Some b => b
                    | None => true
                    end;
     refreshBuffer := match config_refreshBuffer config with
                      | Some n => n
                      | None => DEFAULT_REFRESH_BUFFER
                      end;
     onTokenRefresh := match config_onTokenRefresh config with
                       | Some f => f
                       | None => fun _ w => (Ok tt, w)
                       end |}.

Definition new_client {W : Type} (w : W) : Client W :=
  {| tokens := None; rateLimitInfo := None; trace := []; world := w |}.

(** *** The monad of client methods *)

Definition M (W A : Type) : Type := Client W -> result A * Client W.

Definition ret {W A : Type} (a : A) : M W A := fun c => (Ok a, c).

Definition throw {W A : Type} (e : exn) : M W A := fun c => (Throw e, c).

Definition bind {W A B : Type} (m : M W A) (k : A -> M W B) : M W B :=
  fun c =>
    match m c with
    | (Ok a, c') => k a c'
    | (Throw e, c') => (Throw e, c')
    end.

Definition try_catch {W A : Type} (m : M W A) (handler : exn -> M W A) : M W A :=
  fun c =>
    match m c with
    | (Ok a, c') => (Ok a, c')
    | (Throw e, c') => handler e c'
    end.

Definition lift {W A : Type} (r : result A) : M W A := fun c => (r, c).

Declare Scope client_scope.
Delimit Scope client_scope with client.
Notation "x <- m ;; k" := (bind m (fun x => k))
  (at level 100, m at next level, right associativity) : client_scope.
Notation "m ;;; k" := (bind m (fun _ => k))
  (at level 100, right associativity) : client_scope.
Open Scope client_scope.

Section StravaClient.

Context {W : Type}.
Variable env : Environment W.
Variable config : Config W.

Definition with_world (c : Client W) (w : W) : Client W :=
  {| tokens := tokens c; rateLimitInfo := rateLimitInfo c;
     trace := trace c; world := w |}.

Definition log (ev : event) (c : Client W) : Client W :=
  {| tokens := tokens c; rateLimitInfo := rateLimitInfo c;
     trace := (trace c ++ [ev])%list; world := world c |}.

Definition this_tokens : M W (option StravaTokens) :=
  fun c => (Ok (tokens c), c).

Definition assign_tokens (t : option StravaTokens) : M W unit :=
  fun c => (Ok tt, {| tokens := t; rateLimitInfo := rateLimitInfo c;
                      trace := trace c; world := world c |}).

(** [Date.now()] *)
Definition Date_now : M W Z :=
  fun c => let (ms, w) := date_now env (world c) in (Ok ms, with_world c w).

(** [await fetch(url, init)] *)
Definition await_fetch (url : string) (init : RequestInit.t) : M W Response.t :=
  fun c =>
    let (r, w) := fetch env url init (world c) in
    (r, with_world (log (Fetched url init) c) w).

(** [await this.config.onTokenRefresh(tokens)] *)
Definition await_onTokenRefresh (t : StravaTokens) : M W unit :=
  fun c =>
    let (r, w) := onTokenRefresh config t (world c) in
    (r, with_world (log (Notified t) c) w).

(** [Math.floor(Date.now() / 1000)] *)
Definition now_seconds : M W Z := ms <- Date_now ;; ret (ms / 1000).

(** *** HTTP helpers *)

Definition getAuthHeaders : M W Obj.t :=
  t <- this_tokens ;;
  match t with
  | Some tk =>
      if Js.truthy (accessToken tk)
      then ret [("Authorization", "Bearer " ++ accessToken tk)]
      else throw (StravaValidationError
                    "No access token available. Please authenticate first.")
  | None => throw (StravaValidationError
                     "No access token available. Please authenticate first.")
  end.

Definition updateRateLimitInfo (headers : Headers.t) : M W unit :=
  fun c => (Ok tt, {| tokens := tokens c;
                      rateLimitInfo := updateRateLimitInfo_pure headers (rateLimitInfo c);
                      trace := trace c; world := world c |}).

(** [await response.json().catch(() => ({}))] *)
Definition errorData_of (response : Response.t) : Json :=
  match Response.json response with
  | Ok d => d
  | Throw _ => JRaw "{}"
  end.

(** The [catch] block shared by the two token calls. *)
Definition catch_timeout {A : Type} (error : exn) : M W A :=
  if isAbortError error then throw (StravaNetworkError "Request timed out")
  else throw error.

(** The [catch] block of [request]. *)
Definition catch_network {A : Type} (error : exn) : M W A :=
  if isAbortError error then throw (StravaNetworkError "Request timed out")
  else if isFetchTypeError error
  then throw (StravaNetworkError "Network error - unable to reach Strava")
  else throw error.

(** *** Token management *)

Definition setTokens (t : StravaTokens) : M W unit := assign_tokens (Some t).

Definition getTokens : M W (option StravaTokens) := this_tokens.

Definition clearTokens : M W unit := assign_tokens None.

Definition hasValidTokens : M W bool :=
  t <- this_tokens ;;
  match t with
  | None => ret false
  | Some tk => now <- now_seconds ;; ret (now <? expiresAt tk)
  end.

Definition token_request (grant : Obj.t) : RequestInit.t :=
  {| RequestInit.method := POST;
     RequestInit.headers := [("Content-Type", "application/json")];
     RequestInit.body :=
       Some ([("client_id", clientId config);
              ("client_secret", clientSecret config)] ++ grant)%list |}.

Definition exchangeAuthorizationCode (code : string) : M W StravaTokenResponse :=
  try_catch
    (response <- await_fetch (STRAVA_OAUTH_BASE_URL ++ "/token")
                   (token_request [("code", code);
                                   ("grant_type", "authorization_code")]) ;;
     if negb (Response.ok response) then
       throw (parseStravaError (Response.status response) (errorData_of response)
                (Response.headers response) (Some "Exchange Authorization Code"))
     else
       j <- lift (Response.json response) ;;
       data <- lift (as_token_response j) ;;
       assign_tokens (Some (tokens_of_response data)) ;;;
       ret data)
    catch_timeout.

Definition refreshAccessToken (refreshToken_arg : option string)
    : M W StravaTokenResponse :=
  held <- this_tokens ;;
  let tokenToRefresh :=
    match refreshToken_arg with
    | Some s => if Js.truthy s then Some s else option_map refreshToken held
    | None => option_map refreshToken held
    end in
  match tokenToRefresh with
  | None => throw (StravaTokenRefreshError "No refresh token available")
  | Some tokenToRefresh =>
      if negb (Js.truthy tokenToRefresh)
      then throw (StravaTokenRefreshError "No refresh token available")
      else
        try_catch
          (response <- await_fetch (STRAVA_OAUTH_BASE_URL ++ "/token")
                         (token_request [("grant_type", "refresh_token");
                                         ("refresh_token", tokenToRefresh)]) ;;
           if negb (Response.ok response) then
             throw (parseStravaError (Response.status response)
                      (errorData_of response) (Response.headers response)
                      (Some "Refresh Access Token"))
           else
             j <- lift (Response.json response) ;;
             data <- lift (as_token_response j) ;;
             assign_tokens (Some (tokens_of_response data)) ;;;
             await_onTokenRefresh (tokens_of_response data) ;;;
             ret data)
          catch_timeout
  end.

Definition refreshTokenIfNeeded : M W unit :=
  t <- this_tokens ;;
  match t with
  | None => ret tt
  | Some tk =>
      now <- now_seconds ;;
      let shouldRefresh := expiresAt tk <? now + refreshBuffer config in
      if shouldRefresh then refreshAccessToken None ;;; ret tt else ret tt
  end.

(** *** The request dispatcher *)

Definition is_present {A : Type} (o : option A) : bool :=
  match o with
  | Some _ => true
  | None => false
  end.

Definition is_true (b : option bool) : bool :=
  match b with
  | Some true => true
  | _ => false
  end.

Definition request {T : Type} (as_T : Json -> result T) (method : Method)
    (path : string) (options : RequestOptions.t) : M W T :=
  t <- this_tokens ;;
  (if autoRefresh config && is_present t
      && negb (is_true (RequestOptions.skipAuth options))
   then refreshTokenIfNeeded else ret tt) ;;;
  let url := request_url path options in
  let headers :=
    Obj.assign [("Content-Type", "application/json")]
      (match RequestOptions.headers options with
       | Some h => h
       | None => []
       end) in
  headers <- (if negb (is_true (RequestOptions.skipAuth options))
              then authHeaders <- getAuthHeaders ;;
                   ret (Obj.assign headers authHeaders)
              else ret headers) ;;
  try_catch
    (response <- await_fetch url
                   {| RequestInit.method := method;
                      RequestInit.headers := headers;
                      RequestInit.body := RequestOptions.body options |} ;;
     updateRateLimitInfo (Response.headers response) ;;;
     if negb (Response.ok response) then
       throw (parseStravaError (Response.status response) (errorData_of response)
                (Response.headers response) None)
     else
       j <- lift (Response.json response) ;;
       lift (as_T j))
    catch_network.

Definition deauthorize : M W unit :=
  request as_void POST "/oauth/deauthorize" RequestOptions.empty ;;;
  clearTokens.

Definition getRateLimitInfo : M W (option StravaRateLimitInfo) :=
  fun c => (Ok (rateLimitInfo c), c).

(** *** Activities *)

Definition activities_params (options : GetActivitiesOptions)
    : list (string * param) :=
  [("before", optional_number (before options));
   ("after", optional_number (after options));
   ("page", PNumber (number_or (page options) 1));
   ("per_page", PNumber (number_or (per_page options) 30))].

Definition getActivities (options : GetActivitiesOptions)
    : M W (list StravaActivity) :=
  request as_activities GET "/athlete/activities"
    {| RequestOptions.params := Some (activities_params options);
       RequestOptions.body := None;
       RequestOptions.headers := None;
       RequestOptions.baseUrl := None;
       RequestOptions.skipAuth := None |}.

(** [{...options, page, per_page: perPage}] *)
Definition page_options (options : GetActivitiesOptions) (page perPage : Z)
    : GetActivitiesOptions :=
  {| before := before options; after := after options;
     page := Some page; per_page := Some perPage |}.

(** The [while (hasMore)] loop of [getAllActivities]; one unit of fuel per
    iteration, [None] when the fuel runs out before the loop ends. *)
Fixpoint getAllActivities_loop (fuel : nat) (options : GetActivitiesOptions)
    (perPage page : Z) (allActivities : list StravaActivity)
    : M W (option (list StravaActivity)) :=
  match fuel with
  | O => ret None
  | S fuel' =>
      activities <- getActivities (page_options options page perPage) ;;
      if (List.length activities =? 0)%nat then ret (Some allActivities)
      else
        let allActivities := (allActivities ++ activities)%list in
        let page := page + 1 in
        if Z.of_nat (List.length activities) <? perPage
        then ret (Some allActivities)
        else getAllActivities_loop fuel' options perPage page allActivities
  end.

Definition getAllActivities (fuel : nat) (options : GetActivitiesOptions)
    : M W (option (list StravaActivity)) :=
  let perPage := number_or (per_page options) 200 in
  getAllActivities_loop fuel options perPage 1 [].

End StravaClient.

(** ** The remaining methods of the client *)

Module StravaStreamType.
Inductive t : Type :=
| time | distance | latlng | altitude | velocity_smooth | heartrate
| cadence | watts | temp | moving | grade_smooth.

(** The string a stream type is at run time. *)
Definition name (k : t) : string :=
  match k with
  | time => "time"
  | distance => "distance"
  | latlng => "latlng"
  | altitude => "altitude"
  | velocity_smooth => "velocity_smooth"
  | heartrate => "heartrate"
  | cadence => "cadence"
  | watts => "watts"
  | temp => "temp"
  | moving => "moving"
  | grade_smooth => "grade_smooth"
  end.
End StravaStreamType.

Record GetActivityStreamsOptions : Type := {
  keys : option (list StravaStreamType.t);
  key_by_type : option bool
}.

Module ApprovalPrompt.
Inductive t : Type := auto | force.

Definition name (p : t) : string :=
  match p with
  | auto => "auto"
  | force => "force"
  end.
End ApprovalPrompt.

Module AuthorizationUrlOptions.
(** The second argument of [getAuthorizationUrl]. *)
Record t : Type := {
  state : option string;
  approvalPrompt : option ApprovalPrompt.t
}.
End AuthorizationUrlOptions.

Module JsDate.
(** A [Date]: its time value in milliseconds, or an invalid date. *)
Inductive t : Type :=
| Valid (ms : Z)
| Invalid.

End JsDate.

Module ClientInfo.
(** The summary [getClientInfo] returns. *)
Record t : Type := {
  hasTokens : bool;
  isAuthenticated : bool;
  tokenExpiresAt : option JsDate.t;
  rateLimitInfo : option StravaRateLimitInfo
}.
End ClientInfo.

(** [array.join(sep)] *)
Fixpoint Array_join (sep : string) (l : list string) : string :=
  match l with
  | [] => ""
  | [s] => s
  | s :: r => s ++ sep ++ Array_join sep r
  end.

(** A type assertion does nothing at run time: the parsed body is returned
    as it is. *)
Definition as_any (j : Json) : result Json := Ok j.

(** The stream keys [getActivityStreams] asks for when none are given. *)
Definition default_stream_keys : list StravaStreamType.t :=
  [StravaStreamType.time; StravaStreamType.distance; StravaStreamType.altitude;
   StravaStreamType.heartrate; StravaStreamType.cadence; StravaStreamType.watts;
   StravaStreamType.temp; StravaStreamType.velocity_smooth;
   StravaStreamType.grade_smooth].

(** The [params] of [getActivityStreams]; an array, empty or not, is
    truthy, so only a missing [keys] selects the default. *)
Definition streams_params (options : GetActivityStreamsOptions)
    : list (string * param) :=
  let keys :=
    match keys options with
    | Some ks => ks
    | None => default_stream_keys
    end in
  [("keys", PString (Array_join "," (map StravaStreamType.name keys)));
   ("key_by_type", PBoolean (match key_by_type options with
                             | Some b => b
                             | None => true
                             end))].

Definition params_only (params : list (string * param)) : RequestOptions.t :=
  {| RequestOptions.params := Some params;
     RequestOptions.body := None;
     RequestOptions.headers := None;
     RequestOptions.baseUrl := None;
     RequestOptions.skipAuth := None |}.

Section StravaClientMethods.

Context {W : Type}.
Variable env : Environment W.
Variable config : Config W.

(** [getAuthorizationUrl(scope, options)]; a missing [scope] takes the
    default of the parameter. *)
Definition getAuthorizationUrl (scope : option string)
    (options : option AuthorizationUrlOptions.t) : result string :=
  if negb (Js.truthy (redirectUri config)) then
    Throw (StravaValidationError "Redirect URI is required for OAuth flow")
  else
    let scope := match scope with
                 | Some s => s
                 | None => "activity:read_all"
                 end in
    let approval :=
      match options with
      | Some o => match AuthorizationUrlOptions.approvalPrompt o with
                  | Some p => ApprovalPrompt.name p
                  | None => "auto"
                  end
      | None => "auto"
      end in
    let params : URLSearchParams.t :=
      [("client_id", clientId config);
       ("redirect_uri", redirectUri config);
       ("response_type", "code");
       ("approval_prompt", approval);
       ("scope", scope)] in
    let params :=
      match options with
      | Some o => match AuthorizationUrlOptions.state o with
                  | Some s => if Js.truthy s
                              then URLSearchParams.append "state" s params
                              else params
                  | None => params
                  end
      | None => params
      end in
    Ok (STRAVA_OAUTH_BASE_URL ++ "/authorize?" ++ URLSearchParams.toString params).

Definition getAthlete : M W Json :=
  request env config as_any GET "/athlete" RequestOptions.empty.

Definition getAthleteStats (athleteId : Z) : M W Json :=
  request env config as_any GET
    ("/athletes/" ++ Js.String_of_int athleteId ++ "/stats") RequestOptions.empty.

(** [includeAllEfforts] defaults to [false]. *)
Definition getActivity (activityId : Z) (includeAllEfforts : option bool)
    : M W Json :=
  request env config as_any GET ("/activities/" ++ Js.String_of_int activityId)
    (params_only
       [("include_all_efforts",
         PBoolean (match includeAllEfforts with
                   | Some b => b
                   | None => false
                   end))]).

Definition getActivityStreams (activityId : Z)
    (options : GetActivityStreamsOptions) : M W Json :=
  request env config as_any GET
    ("/activities/" ++ Js.String_of_int activityId ++ "/streams")
    (params_only (streams_params options)).

Definition getActivityZones (activityId : Z) : M W Json :=
  request env config as_any GET
    ("/activities/" ++ Js.String_of_int activityId ++ "/zones") RequestOptions.empty.

Definition getActivityLaps (activityId : Z) : M W Json :=
  request env config as_any GET
    ("/activities/" ++ Js.String_of_int activityId ++ "/laps") RequestOptions.empty.

(** [try { await this.getAthlete(); return true; } catch { return false; }] *)
Definition testConnection : M W bool :=
  try_catch (getAthlete ;;; ret true) (fun _ => ret false).


End StravaClientMethods.

(** ** A scripted world *)

(** A world whose clock stands still and whose network answers from a
    script, one entry per call of [fetch]; when the script is used up the
    network is unreachable. *)
Record Scripted : Type := {
  clock_ms : Z;
  script : list (result Response.t)
}.

Definition scripted_env : Environment Scripted :=
  {| date_now := fun w => (clock_ms w, w);
     fetch := fun _ _ w =>
       match script w with
       | r :: rest => (r, {| clock_ms := clock_ms w; script := rest |})
       | [] => (Throw (Thrown TypeError "TypeError" "fetch failed"), w)
       end |}.

Definition scripted_config (auto : bool) (buffer : Z)
    (callback_error : option exn) : Config Scripted :=
  {| clientId := "12345";
     clientSecret := "secret";
     redirectUri := "";
     autoRefresh := auto;
     refreshBuffer := buffer;
     onTokenRefresh := fun _ w =>
       match callback_error with
       | Some e => (Throw e, w)
       | None => (Ok tt, w)
       end |}.

Definition scripted_client (held : option StravaTokens)
    (info : option StravaRateLimitInfo) (ms : Z)
    (answers : list (result Response.t)) : Client Scripted :=
  {| tokens := held; rateLimitInfo := info; trace := [];
     world := {| clock_ms := ms; script := answers |} |}.

Definition json_response (status : Z) (headers : Headers.t) (j : Json)
    : Response.t :=
  {| Response.ok := (200 <=? status) && (status <=? 299);
     Response.status := status;
     Response.headers := headers;
     Response.json := Ok j |}.

(* ================================================================== *)
(** * Part II: the vocabulary of the statements                       *)
(* ================================================================== *)

(** ** Strings and query parameters *)

(** The characters of a string. *)
Definition chars (s : string) : list ascii := list_ascii_of_string s.

(** [s] does not contain the character [sep]. *)
Definition free_of (sep : ascii) (s : string) : Prop := ~ In sep (chars s).

Definition comma_free (s : string) : Prop := free_of "," s.

Definition all_digits (l : list ascii) : Prop :=
  Forall (fun c => Js.is_digit c = true) l.

(** The entry has a value other than [undefined]. *)
Definition is_defined (kv : string * param) : bool :=
  match snd kv with
  | PUndefined => false
  | _ => true
  end.

(** The entry with its value converted by [String]. *)
Definition stringified (kv : string * param) : string * string :=
  (fst kv, String_of_param (snd kv)).

(** [options.baseUrl ?? STRAVA_API_BASE_URL] *)
Definition base_of (options : RequestOptions.t) : string :=
  match RequestOptions.baseUrl options with
  | Some b => b
  | None => STRAVA_API_BASE_URL
  end.

(** ** Rate limit headers *)

Definition window (l u : option Js.number) : RateLimitWindow :=
  {| usage := u; limit := l |}.

(** What the two headers are read as: component [i] of a header is the
    [i]-th piece between commas, converted by [Number], or [undefined]
    when there is no such piece. *)
Definition component (i : nat) (header : string) : option Js.number :=
  nth_error (map Js.Number (Js.split "," header)) i.

(** ** Token calls and the steps of the dispatcher *)

Definition token_url : string := STRAVA_OAUTH_BASE_URL ++ "/token".

(** The service answered a token call with the token response [data]. *)
Definition answers_with (r : result Response.t) (data : StravaTokenResponse) : Prop :=
  exists response, r = Ok response /\ Response.ok response = true
                   /\ Response.json response = Ok (JTokenResponse data).

(** What the [catch] block of the token calls rethrows. *)
Definition rethrown (e : exn) : exn :=
  if isAbortError e then StravaNetworkError "Request timed out" else e.

Section Steps.

Context {W : Type} (env : Environment W) (config : Config W).

(** No refresh token is held: there is no token set, or its refresh token
    is the empty string. *)
Definition holds_no_refresh_token (c : Client W) : Prop :=
  tokens c = None \/ exists tk, tokens c = Some tk /\ refreshToken tk = "".

Definition exchange_init (code : string) : RequestInit.t :=
  token_request config [("code", code); ("grant_type", "authorization_code")].

Definition refresh_init (refreshToken : string) : RequestInit.t :=
  token_request config [("grant_type", "refresh_token");
                        ("refresh_token", refreshToken)].

(** The token the refresh call sends: the argument if it is a non-empty
    string, otherwise the held refresh token. *)
Definition token_to_refresh (arg : option string) (c : Client W) : option string :=
  match arg with
  | Some s => if Js.truthy s then Some s else option_map refreshToken (tokens c)
  | None => option_map refreshToken (tokens c)
  end.

(** The three blocks of [request]. *)
Definition preflight (options : RequestOptions.t) : M W unit :=
  t <- this_tokens ;;
  if autoRefresh config && is_present t
     && negb (is_true (RequestOptions.skipAuth options))
  then refreshTokenIfNeeded env config else ret tt.

Definition base_headers (options : RequestOptions.t) : Obj.t :=
  Obj.assign [("Content-Type", "application/json")]
    (match RequestOptions.headers options with
     | Some h => h
     | None => []
     end).

Definition build_headers (options : RequestOptions.t) : M W Obj.t :=
  if negb (is_true (RequestOptions.skipAuth options))
  then authHeaders <- getAuthHeaders ;;
       ret (Obj.assign (base_headers options) authHeaders)
  else ret (base_headers options).

Definition dispatch {T : Type} (as_T : Json -> result T) (url : string)
    (init : RequestInit.t) : M W T :=
  try_catch
    (response <- await_fetch env url init ;;
     updateRateLimitInfo (Response.headers response) ;;;
     if negb (Response.ok response) then
       throw (parseStravaError (Response.status response) (errorData_of response)
                (Response.headers response) None)
     else
       j <- lift (Response.json response) ;;
       lift (as_T j))
    catch_network.

Definition init_of (method : Method) (headers : Obj.t)
    (options : RequestOptions.t) : RequestInit.t :=
  {| RequestInit.method := method;
     RequestInit.headers := headers;
     RequestInit.body := RequestOptions.body options |}.

End Steps.

(** ** Pagination *)

(** The URLs of the GET requests in a trace, in order.  The token calls
    are POST requests, so these are the requests to the API. *)
Definition get_urls (events : list event) : list string :=
  flat_map
    (fun ev =>
       match ev with
       | Fetched url init =>
           match RequestInit.method init with
           | GET => [url]
           | POST => []
           end
       | Notified _ => []
       end)
    events.

(** The URL of the request for page [k] at [perPage] activities a page. *)
Definition page_url (options : GetActivitiesOptions) (perPage k : Z) : string :=
  request_url "/athlete/activities"
    {| RequestOptions.params :=
         Some [("before", optional_number (before options));
               ("after", optional_number (after options));
               ("page", PNumber k);
               ("per_page", PNumber perPage)];
       RequestOptions.body := None;
       RequestOptions.headers := None;
       RequestOptions.baseUrl := None;
       RequestOptions.skipAuth := None |}.

Section Pages.

Context {W : Type} (env : Environment W) (config : Config W).

Variable options : GetActivitiesOptions.

Let perPage : Z := number_or (per_page options) 200.

(** A page ends the loop when it is empty or shorter than [perPage]. *)
Definition is_last (p : list StravaActivity) : Prop :=
  List.length p = 0%nat \/ Z.of_nat (List.length p) < perPage.

(** [pages_served k c ps c']: starting in [c], the calls of [getActivities]
    for pages [k], [k+1], ... return the pages [ps] and end in [c']; every
    page but the last one is not a last page, and the last one is. *)
Inductive pages_served : Z -> Client W -> list (list StravaActivity) -> Client W -> Prop :=
| served_last (k : Z) (c c' : Client W) (p : list StravaActivity) :
    getActivities env config (page_options options k perPage) c = (Ok p, c') ->
    is_last p ->
    pages_served k c [p] c'
| served_more (k : Z) (c c1 c' : Client W) (p : list StravaActivity)
      (ps : list (list StravaActivity)) :
    getActivities env config (page_options options k perPage) c = (Ok p, c1) ->
    ~ is_last p ->
    pages_served (k + 1) c1 ps c' ->
    pages_served k c (p :: ps) c'.

End Pages.

(** ** Requests that need no refresh *)

(** What the [catch] block of [request] rethrows. *)
Definition network_error (e : exn) : exn :=
  if isAbortError e then StravaNetworkError "Request timed out"
  else if isFetchTypeError e
  then StravaNetworkError "Network error - unable to reach Strava"
  else e.

(** The outcome of the [try] block of [request] for an outcome of
    [fetch]. *)
Definition dispatch_outcome {T : Type} (as_T : Json -> result T)
    (r : result Response.t) : result T :=
  match r with
  | Throw e => Throw (network_error e)
  | Ok response =>
      if Response.ok response then
        match Response.json response with
        | Ok j => match as_T j with
                  | Ok a => Ok a
                  | Throw e => Throw (network_error e)
                  end
        | Throw e => Throw (network_error e)
        end
      else Throw (StravaHttpError (Response.status response)
                    (errorData_of response) (Response.headers response) None)
  end.

Definition no_access_token : exn :=
  StravaValidationError "No access token available. Please authenticate first.".

Section Ready.

Context {W : Type} (env : Environment W) (config : Config W).

(** The pre-flight check will not refresh: it is switched off, or the held
    token (if any) does not expire before [now + refreshBuffer]. *)
Definition needs_no_refresh (c : Client W) : Prop :=
  autoRefresh config = false
  \/ forall tk, tokens c = Some tk ->
       fst (date_now env (world c)) / 1000 + refreshBuffer config <= expiresAt tk.

(** The client as the pre-flight check leaves it. *)
Definition after_preflight (options : RequestOptions.t) (c : Client W) : Client W :=
  snd (preflight env config options c).

(** The [fetch] argument of a request that carries the token [tk]. *)
Definition authorized_init (method : Method) (options : RequestOptions.t)
    (tk : StravaTokens) : RequestInit.t :=
  init_of method
    (Obj.assign (base_headers options)
       [("Authorization", "Bearer " ++ accessToken tk)])
    options.

End Ready.

(** ** Pages that do not end the loop *)

Section FullPages.

Context {W : Type} (env : Environment W) (config : Config W).

Variable options : GetActivitiesOptions.

(** [full_pages k c ps c']: the calls of [getActivities] for pages [k],
    [k+1], ... return the pages [ps], none of which ends the loop. *)
Inductive full_pages : Z -> Client W -> list (list StravaActivity) -> Client W -> Prop :=
| full_none (k : Z) (c : Client W) : full_pages k c [] c
| full_more (k : Z) (c c1 c' : Client W) (p : list StravaActivity)
      (ps : list (list StravaActivity)) :
    getActivities env config
      (page_options options k (number_or (per_page options) 200)) c = (Ok p, c1) ->
    ~ is_last options p ->
    full_pages (k + 1) c1 ps c' ->
    full_pages k c (p :: ps) c'.

End FullPages.

(** A network that answers every request with a page of two activities. *)
Definition endless_env : Environment unit :=
  {| date_now := fun w => (1700000000000, w);
     fetch := fun _ _ w =>
       (Ok {| Response.ok := true; Response.status := 200;
              Response.headers := [];
              Response.json :=
                Ok (JActivities [{| activity_id := 1; activity_name := "Run" |};
                                 {| activity_id := 2; activity_name := "Ride" |}]) |},
        w) |}.

Definition manual_config : Config unit :=
  {| clientId := "12345"; clientSecret := "secret"; redirectUri := "";
     autoRefresh := false; refreshBuffer := 600;
     onTokenRefresh := fun _ w => (Ok tt, w) |}.

(** ** The authorization URL *)

(** The approval prompt the URL asks for: [auto] unless the options say
    otherwise. *)
Definition approval_of (options : option AuthorizationUrlOptions.t) : string :=
  match options with
  | Some o => match AuthorizationUrlOptions.approvalPrompt o with
              | Some p => ApprovalPrompt.name p
              | None => "auto"
              end
  | None => "auto"
  end.

(** The state the URL carries: the one of the options, if it is a
    non-empty string. *)
Definition state_of (options : option AuthorizationUrlOptions.t) : option string :=
  match options with
  | Some o => match AuthorizationUrlOptions.state o with
              | Some s => if Js.truthy s then Some s else None
              | None => None
              end
  | None => None
  end.

Definition scope_of (scope : option string) : string :=
  match scope with
  | Some s => s
  | None => "activity:read_all"
  end.

(** ** Data of the concrete runs *)

Definition sample_info : StravaRateLimitInfo :=
  {| shortTerm := {| usage := Some (Js.of_N 10); limit := Some (Js.of_N 100) |};
     longTerm := {| usage := Some (Js.of_N 50); limit := Some (Js.of_N 1000) |} |}.

Definition sample_athlete : StravaAthlete :=
  {| athlete_id := 42; username := "runner" |}.

Definition held_tokens : StravaTokens :=
  {| accessToken := "old-access"; refreshToken := "old-refresh";
     expiresAt := 1700000100 |}.

Definition fresh_tokens : StravaTokens :=
  {| accessToken := "access"; refreshToken := "refresh";
     expiresAt := 1700020000 |}.

(** A token response with the six hours of life the service grants. *)
Definition token_response : StravaTokenResponse :=
  {| token_type := "Bearer"; expires_at := 1700021600; expires_in := 21600;
     refresh_token := "new-refresh"; access_token := "new-access";
     athlete := sample_athlete |}.

Definition now_ms : Z := 1700000000000.

Definition activity (n : Z) : StravaActivity :=
  {| activity_id := n; activity_name := "Run" |}.

Definition no_options : GetActivitiesOptions :=
  {| before := None; after := None; page := None; per_page := None |}.

Definition two_per_page : GetActivitiesOptions :=
  {| before := None; after := None; page := None; per_page := Some 2 |}.

Definition three_pages : list (result Response.t) :=
  [Ok (json_response 200 [] (JActivities [activity 1; activity 2]));
   Ok (json_response 200 [] (JActivities [activity 3; activity 4]));
   Ok (json_response 200 [] (JActivities [activity 5]))].

Definition paging_client : Client Scripted :=
  scripted_client (Some fresh_tokens) None now_ms three_pages.

(** A client whose refresh buffer (30000 seconds) is longer than the life
    of the tokens the service grants. *)
Definition wide_buffer : Config Scripted := scripted_config true 30000 None.

Definition stale_client : Client Scripted :=
  scripted_client (Some held_tokens) None now_ms
    [Ok (json_response 200 [] (JTokenResponse token_response));
     Ok (json_response 200 [] (JActivities [activity 1]))].

Definition authorized_get (url token : string) : event :=
  Fetched url
    {| RequestInit.method := GET;
       RequestInit.headers := [("Content-Type", "application/json");
                               ("Authorization", "Bearer " ++ token)];
       RequestInit.body := None |}.

Definition unauthorized : Response.t :=
  json_response 401 [] (JRaw "Authorization Error").

Definition revoking_client : Client Scripted :=
  scripted_client (Some fresh_tokens) None now_ms [Ok unauthorized].

Definition token_client (held : option StravaTokens) : Client Scripted :=
  scripted_client held None now_ms
    [Ok (json_response 200 [] (JTokenResponse token_response))].

Definition plain_config : Config Scripted := scripted_config true 600 None.

(** A client holding tokens that are far from expiry. *)
Definition fresh_client (answers : list (result Response.t)) : Client Scripted :=
  scripted_client (Some fresh_tokens) None now_ms answers.

Definition timeout : exn := Thrown PlainError "AbortError" "This operation was aborted".

Definition throttled : Response.t :=
  json_response 429
    [("X-RateLimit-Limit", "100,1000"); ("X-RateLimit-Usage", "100,250")]
    (JRaw "Rate Limit Exceeded").

Definition skipping_auth : RequestOptions.t :=
  {| RequestOptions.params := None; RequestOptions.body := None;
     RequestOptions.headers := None; RequestOptions.baseUrl := None;
     RequestOptions.skipAuth := Some true |}.

Definition failing_callback : Config Scripted :=
  scripted_config true 600 (Some (Thrown PlainError "Error" "disk full")).

Definition no_redirect : StravaClientConfig Scripted :=
  {| config_clientId := "12345"; config_clientSecret := "secret";
     config_redirectUri := None; config_autoRefresh := None;
     config_refreshBuffer := None; config_onTokenRefresh := None |}.

Definition with_redirect : Config Scripted :=
  {| clientId := "12345"; clientSecret := "secret";
     redirectUri := "https://example.com/cb?x=1";
     autoRefresh := true; refreshBuffer := 600;
     onTokenRefresh := fun _ w => (Ok tt, w) |}.

Definition forced_with_state : AuthorizationUrlOptions.t :=
  {| AuthorizationUrlOptions.state := Some "a b";
     AuthorizationUrlOptions.approvalPrompt := Some ApprovalPrompt.force |}.

Definition server_error : Response.t :=
  json_response 500 [] (JRaw "Internal Server Error").

Definition failing_pages : Client Scripted :=
  fresh_client [Ok (json_response 200 [] (JActivities [activity 1; activity 2]));
                Ok server_error].

Definition revoked_client : Client Scripted :=
  fresh_client [Ok (json_response 200 [] (JRaw "{}"))].

Definition endless_client : Client unit :=
  {| tokens := Some fresh_tokens; rateLimitInfo := None; trace := []; world := tt |}.

(* ================================================================== *)
(** * Part III: properties                                            *)
(* ================================================================== *)


(** ** Token validity *)

Section Validity.

Context {W : Type} (env : Environment W).

(** C5: [hasValidTokens()] always returns, and it returns [true] exactly
    when a token set is held whose [expiresAt] is strictly greater than the
    current time in whole seconds ([Date.now()] divided by 1000, rounded
    down); the held tokens are not touched. *)
Theorem hasValidTokens_iff (c : Client W) :
  exists b c',
    hasValidTokens env c = (Ok b, c')
    /\ tokens c' = tokens c
    /\ (b = true <->
        exists tk, tokens c = Some tk
                   /\ fst (date_now env (world c)) / 1000 < expiresAt tk)
    /\ (tokens c = None -> b = false)
    /\ (forall tk, tokens c = Some tk ->
          expiresAt tk <= fst (date_now env (world c)) / 1000 -> b = false).
Proof.
  unfold hasValidTokens, now_seconds, Date_now, bind, this_tokens, ret.
  destruct (tokens c) as [tk|] eqn:Htk.
  - destruct (date_now env (world c)) as [ms w] eqn:Hnow. cbn [fst].
    eexists. eexists. split; [reflexivity|]. cbn [tokens with_world].
    split; [assumption|].
    split; [|split].
    + rewrite Z.ltb_lt. split.
      * intros H. exists tk. split; [reflexivity | exact H].
      * intros (tk' & Heq & H). inversion Heq; subst. exact H.
    + discriminate.
    + intros tk' Heq Hle. inversion Heq; subst. apply Z.ltb_ge. exact Hle.
  - exists false, c. split; [reflexivity|]. split; [assumption|].
    split; [|split].
    + split; [discriminate|]. intros (tk & Heq & _). congruence.
    + reflexivity.
    + reflexivity.
Qed.

End Validity.

(** ** Refreshing without a refresh token *)

Section NoRefreshToken.

Context {W : Type} (env : Environment W) (config : Config W).

(** C7: when [refreshAccessToken] gets no refresh token (no argument, or
    the empty string) and none is held, it throws the token refresh error
    and leaves the client as it was: tokens, rate limit information, the
    trace (so no network call was made) and the world. *)
Theorem refreshAccessToken_without_token (arg : option string) (c : Client W) :
  arg = None \/ arg = Some "" ->
  holds_no_refresh_token c ->
  refreshAccessToken env config arg c
  = (Throw (StravaTokenRefreshError "No refresh token available"), c).
Proof.
  intros Harg Hheld.
  unfold refreshAccessToken, bind, this_tokens, throw.
  destruct Harg as [-> | ->]; destruct Hheld as [Hn | (tk & Hs & Hr)].
  - rewrite Hn. reflexivity.
  - rewrite Hs. cbn. rewrite Hr. reflexivity.
  - rewrite Hn. reflexivity.
  - rewrite Hs. cbn. rewrite Hr. reflexivity.
Qed.

End NoRefreshToken.

Lemma refreshAccessToken_without_token_witness :
  refreshAccessToken scripted_env (scripted_config true 600 None) None
    (scripted_client None None 0 [])
  = (Throw (StravaTokenRefreshError "No refresh token available"),
     scripted_client None None 0 []).
Proof.
  apply (refreshAccessToken_without_token scripted_env
           (scripted_config true 600 None) None (scripted_client None None 0 [])).
  - left. reflexivity.
  - left. reflexivity.
Defined.

(** ** Parsing numbers and splitting at commas *)

Module JsFacts.

Import Js.

Lemma chars_app (a b : string) : chars (a ++ b) = (chars a ++ chars b)%list.
Proof.
  induction a as [|c r IH]; cbn; [reflexivity|].
  unfold chars in IH. rewrite IH. reflexivity.
Qed.

Lemma free_of_app (sep : ascii) (a b : string) :
  free_of sep a -> free_of sep b -> free_of sep (a ++ b).
Proof.
  unfold free_of. rewrite chars_app. intros Ha Hb Hin.
  apply in_app_or in Hin. tauto.
Qed.

Lemma split_free (sep : ascii) (s : string) :
  free_of sep s -> split sep s = [s].
Proof.
  induction s as [|c r IH]; intros Hfree; cbn.
  - reflexivity.
  - destruct (Ascii.eqb_spec c sep) as [->|Hne].
    + exfalso. apply Hfree. left. reflexivity.
    + rewrite IH; [reflexivity|]. intros Hin. apply Hfree. right. exact Hin.
Qed.

Lemma split_first (sep : ascii) (a b : string) :
  free_of sep a ->
  split sep (a ++ String sep b) = a :: split sep b.
Proof.
  induction a as [|c r IH]; intros Hfree.
  - cbn. rewrite Ascii.eqb_refl. reflexivity.
  - cbn. destruct (Ascii.eqb_spec c sep) as [->|Hne].
    + exfalso. apply Hfree. left. reflexivity.
    + rewrite IH; [reflexivity|]. intros Hin. apply Hfree. right. exact Hin.
Qed.

Lemma split_pair (a b : string) :
  comma_free a -> comma_free b -> split "," (a ++ "," ++ b) = [a; b].
Proof.
  intros Ha Hb. change (a ++ "," ++ b) with (a ++ String "," b).
  rewrite split_first by assumption.
  rewrite split_free by assumption. reflexivity.
Qed.

(** Decimal numerals as the Standard Library prints them. *)

Lemma string_of_uint_digits (d : Decimal.uint) :
  all_digits (chars (NilEmpty.string_of_uint d)).
Proof.
  induction d; cbn; constructor; try reflexivity; assumption.
Qed.

Lemma string_of_uint_nonempty (d : Decimal.uint) :
  d <> Decimal.Nil -> chars (NilEmpty.string_of_uint d) <> [].
Proof.
  destruct d; cbn; congruence.
Qed.

Lemma decimal_fold_acc (d : Decimal.uint) (acc : positive) :
  fold_left (fun a c => (10 * a + digit_value c)%N)
    (chars (NilEmpty.string_of_uint d)) (Npos acc)
  = Npos (Pos.of_uint_acc d acc).
Proof.
  unfold chars.
  revert acc. induction d; intros acc; cbn [NilEmpty.string_of_uint
    list_ascii_of_string fold_left Pos.of_uint_acc]; try reflexivity;
    match goal with
    | |- fold_left _ _ ?x = N.pos (Pos.of_uint_acc _ ?p) =>
        replace x with (N.pos p)
          by (vm_compute (digit_value _); lia)
    end; apply IHd.
Qed.

Lemma decimal_value_of_uint (d : Decimal.uint) :
  decimal_value (chars (NilEmpty.string_of_uint d)) = Pos.of_uint d.
Proof.
  unfold decimal_value, chars.
  induction d; cbn [NilEmpty.string_of_uint list_ascii_of_string
    fold_left Pos.of_uint]; try reflexivity.
  - exact IHd.
  - apply (decimal_fold_acc d 1).
  - apply (decimal_fold_acc d 2).
  - apply (decimal_fold_acc d 3).
  - apply (decimal_fold_acc d 4).
  - apply (decimal_fold_acc d 5).
  - apply (decimal_fold_acc d 6).
  - apply (decimal_fold_acc d 7).
  - apply (decimal_fold_acc d 8).
  - apply (decimal_fold_acc d 9).
Qed.

Lemma digit_not_white (c : ascii) : is_digit c = true -> is_white c = false.
Proof.
  destruct c as [[] [] [] [] [] [] [] []]; intros H;
    try reflexivity; vm_compute in H; discriminate H.
Qed.

Lemma digit_not_special (c : ascii) :
  is_digit c = true ->
  is_char c "x" "X" = false /\ is_char c "o" "O" = false
  /\ is_char c "b" "B" = false /\ is_char c "e" "E" = false
  /\ Ascii.eqb c "-" = false /\ Ascii.eqb c "+" = false
  /\ Ascii.eqb c "." = false /\ Ascii.eqb c "I" = false.
Proof.
  destruct c as [[] [] [] [] [] [] [] []]; intros H;
    vm_compute in H; try discriminate H; repeat split; reflexivity.
Qed.

Lemma span_all_digits (l : list ascii) :
  all_digits l -> span_digits l = (l, []).
Proof.
  induction 1 as [|c r Hc _ IH]; cbn.
  - reflexivity.
  - rewrite Hc, IH. reflexivity.
Qed.

Lemma drop_white_digit (c : ascii) (r : list ascii) :
  is_digit c = true -> drop_white (c :: r) = c :: r.
Proof.
  intros H. cbn. rewrite (digit_not_white c H). reflexivity.
Qed.

Lemma trim_all_digits (l : list ascii) : all_digits l -> trim l = l.
Proof.
  intros Hall. unfold trim.
  assert (Hdrop : forall m, all_digits m -> drop_white m = m).
  { intros m Hm. destruct Hm as [|c r Hc _]; [reflexivity|].
    apply drop_white_digit. exact Hc. }
  rewrite (Hdrop l Hall).
  rewrite Hdrop; [apply rev_involutive|].
  apply Forall_rev. exact Hall.
Qed.

(** A non-empty string of decimal digits converts to the number it
    denotes. *)
Lemma Number_digits (s : string) :
  all_digits (chars s) -> chars s <> [] ->
  Number s = of_N (decimal_value (chars s)).
Proof.
  intros Hall Hne. unfold Number. fold (chars s).
  rewrite (trim_all_digits _ Hall).
  destruct (chars s) as [|c1 r] eqn:Hs; [congruence|].
  inversion Hall as [|? ? Hc1 Hr]; subst.
  assert (Hnd : NonDecimalIntegerLiteral (c1 :: r) = None).
  { cbn. destruct r as [|c2 r']; [reflexivity|].
    inversion Hr as [|? ? Hc2 _]; subst.
    destruct (digit_not_special c2 Hc2) as (Hx & Ho & Hb & _).
    rewrite Hx, Ho, Hb. destruct (negb _); reflexivity. }
  rewrite Hnd. unfold StrDecimalLiteral.
  destruct (digit_not_special c1 Hc1) as (_ & _ & _ & _ & Hm & Hp & _ & HI).
  rewrite Hm, Hp. cbn [string_of_list_ascii].
  replace (String c1 (string_of_list_ascii r) =? "Infinity")%string with false.
  2:{ cbn. rewrite HI. reflexivity. }
  unfold StrUnsignedDecimalLiteral. rewrite (span_all_digits _ Hall).
  reflexivity.
Qed.

(** [Number] reads back the decimal numeral of a natural number. *)
Lemma Number_decimal_digits (n : N) : Number (decimal_digits n) = of_N n.
Proof.
  unfold decimal_digits. rewrite Number_digits.
  - rewrite decimal_value_of_uint.
    change (Pos.of_uint (N.to_uint n)) with (N.of_uint (N.to_uint n)).
    rewrite DecimalN.Unsigned.of_to. reflexivity.
  - apply string_of_uint_digits.
  - apply string_of_uint_nonempty.
    destruct n as [|p]; cbn; [discriminate|].
    apply DecimalPos.Unsigned.to_uint_nonnil.
Qed.

Lemma decimal_digits_comma_free (n : N) : comma_free (decimal_digits n).
Proof.
  unfold comma_free, free_of, decimal_digits. intros Hin.
  pose proof (string_of_uint_digits (N.to_uint n)) as Hall.
  unfold all_digits in Hall. rewrite Forall_forall in Hall.
  specialize (Hall _ Hin). discriminate Hall.
Qed.

Lemma append_comma_truthy (a b : string) : truthy (a ++ "," ++ b) = true.
Proof.
  destruct a; reflexivity.
Qed.

End JsFacts.

(** ** Rate limit headers *)

Section RateLimit.

Context {W : Type}.

(** C2, amended: [updateRateLimitInfo] touches nothing but the rate limit
    information; it leaves that as it was when one of the two headers is
    missing or empty, and overwrites it whenever both are present and not
    empty, whatever they contain: each field is the corresponding
    comma-separated piece converted by [Number] ([NaN] for a piece that is
    not a number, [undefined] for a piece that is not there). *)
Theorem updateRateLimitInfo_frame (headers : Headers.t) (c : Client W) :
  let lh := Headers.get "x-ratelimit-limit" headers in
  let uh := Headers.get "x-ratelimit-usage" headers in
  let c' := snd (updateRateLimitInfo headers c) in
  fst (updateRateLimitInfo headers c) = Ok tt
  /\ tokens c' = tokens c /\ trace c' = trace c /\ world c' = world c
  /\ (lh = None \/ lh = Some "" \/ uh = None \/ uh = Some "" ->
      rateLimitInfo c' = rateLimitInfo c)
  /\ (forall l u, lh = Some l -> l <> "" -> uh = Some u -> u <> "" ->
      rateLimitInfo c'
      = Some {| shortTerm := window (component 0 l) (component 0 u);
                longTerm := window (component 1 l) (component 1 u) |}).
Proof.
  cbn zeta. unfold updateRateLimitInfo. cbn [fst snd tokens trace world rateLimitInfo].
  repeat split.
  - unfold updateRateLimitInfo_pure.
    intros [H | [H | [H | H]]]; rewrite H; try reflexivity.
    + destruct (Headers.get "x-ratelimit-usage" headers); reflexivity.
    + destruct (Headers.get "x-ratelimit-limit" headers); reflexivity.
    + destruct (Headers.get "x-ratelimit-limit" headers) as [l|];
        [|reflexivity].
      cbn. rewrite andb_false_r. reflexivity.
  - intros l u Hl Hlne Hu Hune. unfold updateRateLimitInfo_pure.
    rewrite Hl, Hu.
    assert (Ht : forall s, s <> "" -> Js.truthy s = true).
    { intros s Hs. unfold Js.truthy. destruct (String.eqb_spec s ""); [contradiction | reflexivity]. }
    rewrite (Ht l Hlne), (Ht u Hune). reflexivity.
Qed.

(** C9: when the limit header is [a,b] and the usage header is [c,d], for
    decimal numerals [a], [b], [c], [d], the stored information afterwards
    is [{shortTerm: {limit: a, usage: c}, longTerm: {limit: b, usage: d}}]. *)
Theorem updateRateLimitInfo_pairs (headers : Headers.t) (c : Client W)
    (a b u v : N) :
  Headers.get "x-ratelimit-limit" headers
    = Some (Js.decimal_digits a ++ "," ++ Js.decimal_digits b) ->
  Headers.get "x-ratelimit-usage" headers
    = Some (Js.decimal_digits u ++ "," ++ Js.decimal_digits v) ->
  rateLimitInfo (snd (updateRateLimitInfo headers c))
  = Some {| shortTerm := {| usage := Some (Js.of_N u); limit := Some (Js.of_N a) |};
            longTerm := {| usage := Some (Js.of_N v); limit := Some (Js.of_N b) |} |}.
Proof.
  intros Hl Hu. unfold updateRateLimitInfo. cbn [snd rateLimitInfo].
  unfold updateRateLimitInfo_pure. rewrite Hl, Hu.
  rewrite !JsFacts.append_comma_truthy. cbn [andb].
  unfold number_pair.
  rewrite !JsFacts.split_pair by apply JsFacts.decimal_digits_comma_free.
  cbn [map nth_error]. rewrite !JsFacts.Number_decimal_digits. reflexivity.
Qed.

End RateLimit.

Lemma updateRateLimitInfo_frame_witness :
  rateLimitInfo
    (snd (updateRateLimitInfo [("X-RateLimit-Limit", "100,1000")]
            (scripted_client None (Some sample_info) 0 [])))
  = Some sample_info.
Proof.
  apply (updateRateLimitInfo_frame [("X-RateLimit-Limit", "100,1000")]
           (scripted_client None (Some sample_info) 0 [])).
  right. right. left. reflexivity.
Defined.

(** The claim C2 as the specification states it fails for a malformed
    header: a limit header that is no pair of numbers overwrites the held
    information, with [NaN] and [undefined] in the limit fields. *)
Lemma malformed_header_overwrites :
  let headers := [("x-ratelimit-limit", "abc"); ("x-ratelimit-usage", "10,50")] in
  let c := scripted_client None (Some sample_info) 0 [] in
  let c' := snd (updateRateLimitInfo headers c) in
  rateLimitInfo c'
  = Some {| shortTerm := {| usage := Some (Js.of_N 10); limit := Some Js.NaN |};
            longTerm := {| usage := Some (Js.of_N 50); limit := None |} |}
  /\ rateLimitInfo c' <> rateLimitInfo c.
Proof.
  cbn zeta. split.
  - vm_compute. reflexivity.
  - vm_compute. discriminate.
Qed.

Lemma updateRateLimitInfo_pairs_witness :
  rateLimitInfo
    (snd (updateRateLimitInfo
            [("x-ratelimit-limit", "100,1000"); ("x-ratelimit-usage", "10,50")]
            (scripted_client None None 0 [])))
  = Some sample_info.
Proof.
  apply (updateRateLimitInfo_pairs
           [("x-ratelimit-limit", "100,1000"); ("x-ratelimit-usage", "10,50")]
           (scripted_client None None 0 []) 100 1000 10 50); reflexivity.
Defined.

(** ** Query strings *)

Module QueryFacts.

Import URLSearchParams.

Lemma searchParams_of_acc (params : list (string * param)) (acc : URLSearchParams.t) :
  fold_left
    (fun searchParams kv =>
       match snd kv with
       | PUndefined => searchParams
       | value => append (fst kv) (String_of_param value) searchParams
       end)
    params acc
  = (acc ++ map stringified (filter is_defined params))%list.
Proof.
  revert acc. induction params as [|[k v] r IH]; intros acc; cbn [fold_left filter].
  - cbn. rewrite List.app_nil_r. reflexivity.
  - unfold is_defined at 1. cbn [snd fst].
    destruct v; rewrite IH; unfold append; cbn [map];
      try rewrite <- List.app_assoc; reflexivity.
Qed.

(** The loop appends the defined entries, in order, and nothing else. *)
Lemma searchParams_of_filter (params : list (string * param)) :
  searchParams_of params = map stringified (filter is_defined params).
Proof.
  unfold searchParams_of. rewrite searchParams_of_acc. reflexivity.
Qed.

Lemma encode_byte_free (c : ascii) :
  free_of "&" (encode_byte c).
Proof.
  unfold free_of.
  destruct c as [[] [] [] [] [] [] [] []]; vm_compute; intuition congruence.
Qed.

Lemma encode_free (s : string) : free_of "&" (encode s).
Proof.
  induction s as [|c r IH]; cbn [encode].
  - intros [].
  - apply JsFacts.free_of_app; [apply encode_byte_free | exact IH].
Qed.

Lemma encode_pair_free (kv : string * string) :
  free_of "&" (encode_pair kv).
Proof.
  unfold encode_pair. apply JsFacts.free_of_app; [apply encode_free|].
  apply JsFacts.free_of_app; [|apply encode_free].
  unfold free_of. cbn. intros [H | []]. discriminate H.
Qed.

Lemma encode_pair_nonempty (kv : string * string) : encode_pair kv <> "".
Proof.
  unfold encode_pair. destruct (encode (fst kv)); discriminate.
Qed.

(** The pieces of the serialized string between ampersands are the encoded
    pairs. *)
Lemma split_toString (p : URLSearchParams.t) :
  p <> [] -> Js.split "&" (toString p) = map encode_pair p.
Proof.
  induction p as [|kv r IH]; intros Hne; [congruence|].
  destruct r as [|kv' r'].
  - cbn [toString map]. apply JsFacts.split_free. apply encode_pair_free.
  - change (toString (kv :: kv' :: r'))
      with (encode_pair kv ++ String "&" (toString (kv' :: r'))).
    rewrite JsFacts.split_first by apply encode_pair_free.
    rewrite IH by discriminate. reflexivity.
Qed.

Lemma toString_truthy (p : URLSearchParams.t) :
  Js.truthy (toString p) = match p with [] => false | _ => true end.
Proof.
  destruct p as [|kv r]; [reflexivity|].
  unfold Js.truthy.
  destruct r as [|kv' r'].
  - cbn [toString]. pose proof (encode_pair_nonempty kv) as H.
    destruct (String.eqb_spec (encode_pair kv) ""); [contradiction | reflexivity].
  - change (toString (kv :: kv' :: r'))
      with (encode_pair kv ++ String "&" (toString (kv' :: r'))).
    pose proof (encode_pair_nonempty kv) as H.
    destruct (encode_pair kv); [congruence | reflexivity].
Qed.

End QueryFacts.



(** ** Token calls *)

Section TokenCalls.

Context {W : Type} (env : Environment W) (config : Config W).

Lemma catch_timeout_rethrown {A : Type} (e : exn) (c : Client W) :
  @catch_timeout W A e c = (Throw (rethrown e), c).
Proof.
  unfold catch_timeout, rethrown, throw. destruct (isAbortError e); reflexivity.
Qed.

(** [exchangeAuthorizationCode] makes one network call and nothing else. *)
Lemma exchange_run (code : string) (c : Client W) :
  let answer := fetch env token_url (exchange_init config code) (world c) in
  let c' := snd (exchangeAuthorizationCode env config code c) in
  trace c' = (trace c ++ [Fetched token_url (exchange_init config code)])%list
  /\ world c' = snd answer
  /\ rateLimitInfo c' = rateLimitInfo c
  /\ (forall data,
        fst (exchangeAuthorizationCode env config code c) = Ok data ->
        answers_with (fst answer) data
        /\ tokens c' = Some (tokens_of_response data))
  /\ (forall e,
        fst (exchangeAuthorizationCode env config code c) = Throw e ->
        tokens c' = tokens c).
Proof.
  cbn zeta.
  unfold exchangeAuthorizationCode, try_catch, bind, await_fetch, lift, throw,
    ret, assign_tokens.
  fold token_url. fold (exchange_init config code).
  destruct (fetch env token_url (exchange_init config code) (world c))
    as [[response|e] w] eqn:Hf; cbn [fst snd].
  2:{ rewrite catch_timeout_rethrown. cbn. repeat split; try discriminate. }
  destruct (Response.ok response) eqn:Hok; cbn [negb].
  2:{ rewrite catch_timeout_rethrown. cbn. repeat split; try discriminate. }
  destruct (Response.json response) as [j|e] eqn:Hj.
  2:{ rewrite catch_timeout_rethrown. cbn. repeat split; try discriminate. }
  destruct j as [data| |]; cbn [as_token_response];
    try (rewrite catch_timeout_rethrown; cbn; repeat split; discriminate).
  cbn. repeat split; try discriminate.
  - inversion H; subst. exists response. auto.
  - inversion H; subst. reflexivity.
Qed.

(** [refreshAccessToken] with a token to send: one network call, then at
    most one call of the callback, and that only after a token response. *)
Lemma refresh_run (arg : option string) (c : Client W) (tokenToRefresh : string) :
  token_to_refresh arg c = Some tokenToRefresh ->
  tokenToRefresh <> "" ->
  let answer := fetch env token_url (refresh_init config tokenToRefresh) (world c) in
  let fetched := Fetched token_url (refresh_init config tokenToRefresh) in
  let r := fst (refreshAccessToken env config arg c) in
  let c' := snd (refreshAccessToken env config arg c) in
  rateLimitInfo c' = rateLimitInfo c
  /\ ((exists data,
         answers_with (fst answer) data
         /\ tokens c' = Some (tokens_of_response data)
         /\ trace c' = (trace c ++ [fetched; Notified (tokens_of_response data)])%list
         /\ world c' = snd (onTokenRefresh config (tokens_of_response data) (snd answer))
         /\ r = match fst (onTokenRefresh config (tokens_of_response data) (snd answer)) with
                | Ok _ => Ok data
                | Throw e => Throw (rethrown e)
                end)
      \/ ((forall data, ~ answers_with (fst answer) data)
          /\ tokens c' = tokens c
          /\ trace c' = (trace c ++ [fetched])%list
          /\ world c' = snd answer
          /\ exists e, r = Throw e)).
Proof.
  intros Htok Hne. cbn zeta.
  assert (Htruthy : Js.truthy tokenToRefresh = true).
  { unfold Js.truthy. destruct (String.eqb_spec tokenToRefresh ""); [contradiction|reflexivity]. }
  remember (refreshAccessToken env config arg c) as run eqn:Hrun.
  unfold refreshAccessToken, bind at 1, this_tokens in Hrun.
  unfold token_to_refresh in Htok. rewrite Htok, Htruthy in Hrun. cbn [negb] in Hrun.
  unfold try_catch, bind, await_fetch, await_onTokenRefresh, lift, throw, ret,
    assign_tokens in Hrun.
  fold token_url in Hrun. fold (refresh_init config tokenToRefresh) in Hrun.
  destruct (fetch env token_url (refresh_init config tokenToRefresh) (world c))
    as [[response|e] w] eqn:Hf; cbn [fst snd].
  2:{ rewrite catch_timeout_rethrown in Hrun. subst run. cbn.
      split; [reflexivity|]. right.
      repeat split; eauto. intros data (resp & Hr & _). discriminate Hr. }
  destruct (Response.ok response) eqn:Hok; cbn [negb] in Hrun.
  2:{ rewrite catch_timeout_rethrown in Hrun. subst run. cbn.
      split; [reflexivity|]. right.
      repeat split; eauto. intros data (resp & Hr & Hok' & _).
      inversion Hr; subst. congruence. }
  destruct (Response.json response) as [j|e] eqn:Hj.
  2:{ rewrite catch_timeout_rethrown in Hrun. subst run. cbn.
      split; [reflexivity|]. right.
      repeat split; eauto. intros data (resp & Hr & _ & Hj').
      inversion Hr; subst. congruence. }
  destruct j as [data| |]; cbn [as_token_response] in Hrun;
    try (rewrite catch_timeout_rethrown in Hrun; subst run; cbn;
         split; [reflexivity|]; right;
         repeat split; eauto; intros data (resp & Hr & _ & Hj');
         inversion Hr; subst; congruence).
  cbn [tokens rateLimitInfo trace world log with_world] in Hrun.
  destruct (onTokenRefresh config (tokens_of_response data) w) as [[[]|e] w'] eqn:Hcb;
    try rewrite catch_timeout_rethrown in Hrun; subst run;
    cbn [fst snd tokens rateLimitInfo trace world log with_world];
    (split; [reflexivity|]); left; exists data;
    (split; [exists response; auto|]); repeat split;
    try (rewrite <- List.app_assoc; reflexivity);
    rewrite Hcb; reflexivity.
Qed.

Lemma answers_with_unique (r : result Response.t) (d1 d2 : StravaTokenResponse) :
  answers_with r d1 -> answers_with r d2 -> d1 = d2.
Proof.
  intros (r1 & H1 & _ & J1) (r2 & H2 & _ & J2).
  rewrite H1 in H2. inversion H2; subst. rewrite J1 in J2.
  inversion J2. reflexivity.
Qed.

Lemma refresh_stops_without_token (arg : option string) (c : Client W) :
  token_to_refresh arg c = None \/ token_to_refresh arg c = Some "" ->
  refreshAccessToken env config arg c
  = (Throw (StravaTokenRefreshError "No refresh token available"), c).
Proof.
  unfold token_to_refresh, refreshAccessToken, bind, this_tokens, throw.
  intros [H | H]; rewrite H; reflexivity.
Qed.

Lemma token_to_refresh_cases (arg : option string) (c : Client W) :
  (token_to_refresh arg c = None \/ token_to_refresh arg c = Some "")
  \/ exists t, token_to_refresh arg c = Some t /\ t <> "".
Proof.
  destruct (token_to_refresh arg c) as [t|]; [|left; left; reflexivity].
  destruct (String.eqb_spec t "") as [->|Hne].
  - left. right. reflexivity.
  - right. exists t. split; [reflexivity | exact Hne].
Qed.

(** A token response makes [exchangeAuthorizationCode] return it. *)
Lemma exchange_succeeds (code : string) (c : Client W) (data : StravaTokenResponse) :
  answers_with (fst (fetch env token_url (exchange_init config code) (world c))) data ->
  fst (exchangeAuthorizationCode env config code c) = Ok data
  /\ tokens (snd (exchangeAuthorizationCode env config code c))
     = Some (tokens_of_response data).
Proof.
  intros (response & Hr & Hok & Hj).
  unfold exchangeAuthorizationCode, try_catch, bind, await_fetch, lift, throw,
    ret, assign_tokens.
  fold token_url. fold (exchange_init config code).
  destruct (fetch env token_url (exchange_init config code) (world c)) as [r w].
  cbn [fst] in Hr. subst r. rewrite Hok. cbn [negb]. rewrite Hj.
  cbn. split; reflexivity.
Qed.

(** C4: after a successful [exchangeAuthorizationCode] or
    [refreshAccessToken] the client holds exactly the access token, refresh
    token and expiry of the token response the service sent, and either
    call does succeed, returning that response, whenever the service
    answers with one (and, for the refresh, the callback returns).  A
    successful [refreshAccessToken] has called [onTokenRefresh] exactly
    once, with these tokens, after the network call; and when the callback
    throws, the call of [refreshAccessToken] throws too (the error of the
    callback, as rethrown by the [catch] block), again after exactly one
    call of the callback. *)
Theorem token_calls_hold_response :
  (forall code c data,
     fst (exchangeAuthorizationCode env config code c) = Ok data ->
     answers_with (fst (fetch env token_url (exchange_init config code) (world c))) data
     /\ tokens (snd (exchangeAuthorizationCode env config code c))
        = Some {| accessToken := access_token data;
                  refreshToken := refresh_token data;
                  expiresAt := expires_at data |})
  /\ (forall code c data,
        answers_with
          (fst (fetch env token_url (exchange_init config code) (world c))) data ->
        fst (exchangeAuthorizationCode env config code c) = Ok data
        /\ tokens (snd (exchangeAuthorizationCode env config code c))
           = Some {| accessToken := access_token data;
                     refreshToken := refresh_token data;
                     expiresAt := expires_at data |}
        /\ trace (snd (exchangeAuthorizationCode env config code c))
           = (trace c ++ [Fetched token_url (exchange_init config code)])%list)
  /\ (forall arg c data,
        fst (refreshAccessToken env config arg c) = Ok data ->
        exists t,
          token_to_refresh arg c = Some t
          /\ answers_with (fst (fetch env token_url (refresh_init config t) (world c))) data
          /\ tokens (snd (refreshAccessToken env config arg c))
             = Some {| accessToken := access_token data;
                       refreshToken := refresh_token data;
                       expiresAt := expires_at data |}
          /\ trace (snd (refreshAccessToken env config arg c))
             = (trace c ++ [Fetched token_url (refresh_init config t);
                            Notified (tokens_of_response data)])%list)
  /\ (forall arg c t data,
        token_to_refresh arg c = Some t -> t <> "" ->
        answers_with (fst (fetch env token_url (refresh_init config t) (world c))) data ->
        fst (onTokenRefresh config (tokens_of_response data)
               (snd (fetch env token_url (refresh_init config t) (world c)))) = Ok tt ->
        fst (refreshAccessToken env config arg c) = Ok data
        /\ tokens (snd (refreshAccessToken env config arg c))
           = Some {| accessToken := access_token data;
                     refreshToken := refresh_token data;
                     expiresAt := expires_at data |}
        /\ trace (snd (refreshAccessToken env config arg c))
           = (trace c ++ [Fetched token_url (refresh_init config t);
                          Notified (tokens_of_response data)])%list)
  /\ (forall arg c t data e,
        token_to_refresh arg c = Some t -> t <> "" ->
        answers_with (fst (fetch env token_url (refresh_init config t) (world c))) data ->
        fst (onTokenRefresh config (tokens_of_response data)
               (snd (fetch env token_url (refresh_init config t) (world c)))) = Throw e ->
        fst (refreshAccessToken env config arg c) = Throw (rethrown e)
        /\ trace (snd (refreshAccessToken env config arg c))
           = (trace c ++ [Fetched token_url (refresh_init config t);
                          Notified (tokens_of_response data)])%list).
Proof.
  split; [|split; [|split; [|split]]].
  - intros code c data Hok.
    destruct (exchange_run code c) as (_ & _ & _ & Hdata & _).
    apply Hdata. exact Hok.
  - intros code c data Hans.
    destruct (exchange_succeeds code c data Hans) as [Hok Htok].
    destruct (exchange_run code c) as (Htr & _).
    split; [exact Hok|]. split; [exact Htok | exact Htr].
  - intros arg c data Hok.
    destruct (token_to_refresh_cases arg c) as [Hnone | (t & Ht & Hne)].
    + rewrite (refresh_stops_without_token arg c Hnone) in Hok. discriminate Hok.
    + exists t. split; [exact Ht|].
      destruct (refresh_run arg c t Ht Hne)
        as (_ & [(d & Hans & Htok & Htr & _ & Hr) | (_ & _ & _ & _ & e & Hr)]).
      * rewrite Hr in Hok.
        destruct (fst (onTokenRefresh config (tokens_of_response d) _));
          inversion Hok; subst. auto.
      * rewrite Hr in Hok. discriminate Hok.
  - intros arg c t data Ht Hne Hans Hcb.
    destruct (refresh_run arg c t Ht Hne)
      as (_ & [(d & Hans' & Htok & Htr & _ & Hr) | (Hnot & _)]).
    + pose proof (answers_with_unique _ _ _ Hans Hans') as ->.
      rewrite Hcb in Hr. auto.
    + exfalso. exact (Hnot data Hans).
  - intros arg c t data e Ht Hne Hans Hcb.
    destruct (refresh_run arg c t Ht Hne)
      as (_ & [(d & Hans' & _ & Htr & _ & Hr) | (Hnot & _)]).
    + pose proof (answers_with_unique _ _ _ Hans Hans') as ->.
      rewrite Hcb in Hr. auto.
    + exfalso. exact (Hnot data Hans).
Qed.

(** C10: [exchangeAuthorizationCode] never calls [onTokenRefresh]: whatever
    the outcome, all it adds to the trace is its one network call, and the
    world is the one that network call left; yet on success it has replaced
    the held tokens. *)
Theorem exchange_never_notifies (code : string) (c : Client W) :
  let c' := snd (exchangeAuthorizationCode env config code c) in
  (exists added,
      trace c' = (trace c ++ added)%list
      /\ added = [Fetched token_url (exchange_init config code)]
      /\ forall t, ~ In (Notified t) added)
  /\ world c' = snd (fetch env token_url (exchange_init config code) (world c))
  /\ (forall data,
        fst (exchangeAuthorizationCode env config code c) = Ok data ->
        tokens c' = Some (tokens_of_response data)).
Proof.
  cbn zeta.
  destruct (exchange_run code c) as (Htr & Hw & _ & Hdata & _).
  split; [|split].
  - exists [Fetched token_url (exchange_init config code)].
    split; [exact Htr|]. split; [reflexivity|].
    intros t [H | []]. discriminate H.
  - exact Hw.
  - intros data Hok. apply (Hdata data Hok).
Qed.

End TokenCalls.

(** ** The request dispatcher, step by step *)

Section Dispatch.

Context {W : Type} (env : Environment W) (config : Config W).

Lemma request_steps {T : Type} (as_T : Json -> result T) (method : Method)
    (path : string) (options : RequestOptions.t) (c : Client W) :
  request env config as_T method path options c
  = (preflight env config options ;;;
     headers <- build_headers options ;;
     dispatch env as_T (request_url path options) (init_of method headers options)) c.
Proof.
  unfold request, preflight, build_headers, dispatch, base_headers, init_of,
    bind, this_tokens.
  reflexivity.
Qed.

Lemma catch_network_throws {A : Type} (e : exn) (c : Client W) :
  exists e', @catch_network W A e c = (Throw e', c).
Proof.
  unfold catch_network, throw.
  destruct (isAbortError e); [eauto|].
  destruct (isFetchTypeError e); eauto.
Qed.

(** The [try] block makes one network call; it changes the rate limit
    information and nothing else of the client. *)
Lemma dispatch_run {T : Type} (as_T : Json -> result T) (url : string)
    (init : RequestInit.t) (c : Client W) :
  let c' := snd (dispatch env as_T url init c) in
  tokens c' = tokens c
  /\ trace c' = (trace c ++ [Fetched url init])%list
  /\ world c' = snd (fetch env url init (world c))
  /\ rateLimitInfo c'
     = match fst (fetch env url init (world c)) with
       | Ok response =>
           updateRateLimitInfo_pure (Response.headers response) (rateLimitInfo c)
       | Throw _ => rateLimitInfo c
       end.
Proof.
  cbn zeta.
  unfold dispatch, try_catch, bind, await_fetch, updateRateLimitInfo, lift, throw.
  destruct (fetch env url init (world c)) as [[response|e] w]; cbn [fst snd].
  2:{ destruct (@catch_network_throws T e (with_world (log (Fetched url init) c) w))
        as (e' & ->). cbn. auto. }
  cbn [tokens rateLimitInfo trace world with_world log].
  destruct (Response.ok response); cbn [negb].
  - destruct (Response.json response) as [j|e].
    + destruct (as_T j) as [a|e].
      * cbn. auto.
      * match goal with
        | |- context [catch_network e ?x] =>
            destruct (@catch_network_throws T e x) as (e' & ->)
        end. cbn. auto.
    + match goal with
      | |- context [catch_network e ?x] =>
          destruct (@catch_network_throws T e x) as (e' & ->)
      end. cbn. auto.
  - match goal with
    | |- context [catch_network ?e ?x] =>
        destruct (@catch_network_throws T e x) as (e' & ->)
    end. cbn. auto.
Qed.

Lemma set_get_same (k v : string) (o : Obj.t) :
  Obj.get k (Obj.set k v o) = Some v.
Proof.
  induction o as [|[k' v'] r IH]; cbn.
  - rewrite String.eqb_refl. reflexivity.
  - destruct (String.eqb_spec k' k) as [->|Hne]; cbn.
    + rewrite String.eqb_refl. reflexivity.
    + destruct (String.eqb_spec k' k); [contradiction | exact IH].
Qed.

(** Building the headers leaves the client as it is; when it succeeds
    without [skipAuth], the [Authorization] header carries the held access
    token. *)
Lemma build_headers_run (options : RequestOptions.t) (c : Client W) :
  snd (build_headers options c) = c
  /\ (is_true (RequestOptions.skipAuth options) = false ->
      match tokens c with
      | Some tk =>
          if Js.truthy (accessToken tk)
          then exists headers,
                 fst (build_headers options c) = Ok headers
                 /\ Obj.get "Authorization" headers
                    = Some ("Bearer " ++ accessToken tk)
          else exists e, fst (build_headers options c) = Throw e
      | None => exists e, fst (build_headers options c) = Throw e
      end).
Proof.
  unfold build_headers, getAuthHeaders, bind, this_tokens, ret, throw.
  destruct (is_true (RequestOptions.skipAuth options)); cbn [negb].
  - split; [reflexivity | discriminate].
  - destruct (tokens c) as [tk|].
    + destruct (Js.truthy (accessToken tk)); cbn.
      * split; [reflexivity|]. intros _. eexists. split; [reflexivity|].
        unfold Obj.assign. cbn [fold_left fst snd]. apply set_get_same.
      * split; [reflexivity|]. intros _. eauto.
    + cbn. split; [reflexivity|]. intros _. eauto.
Qed.

(** The pre-flight check does nothing when it is switched off, when no
    tokens are held or when authentication is skipped. *)
Lemma preflight_off (options : RequestOptions.t) (c : Client W) :
  autoRefresh config && is_present (tokens c)
    && negb (is_true (RequestOptions.skipAuth options)) = false ->
  preflight env config options c = (Ok tt, c).
Proof.
  intros H. unfold preflight, bind, this_tokens. rewrite H. reflexivity.
Qed.

(** Otherwise it reads the clock, and refreshes when the held token
    expires before [now + refreshBuffer]. *)
Lemma preflight_on (options : RequestOptions.t) (c : Client W) (tk : StravaTokens) :
  autoRefresh config = true ->
  tokens c = Some tk ->
  is_true (RequestOptions.skipAuth options) = false ->
  let ms := fst (date_now env (world c)) in
  let c1 := with_world c (snd (date_now env (world c))) in
  preflight env config options c
  = if expiresAt tk <? ms / 1000 + refreshBuffer config
    then match refreshAccessToken env config None c1 with
         | (Ok _, c2) => (Ok tt, c2)
         | (Throw e, c2) => (Throw e, c2)
         end
    else (Ok tt, c1).
Proof.
  intros Hauto Htk Hskip. cbn zeta.
  unfold preflight, refreshTokenIfNeeded, now_seconds, Date_now, bind,
    this_tokens, ret.
  rewrite Hauto, Htk, Hskip. cbn [is_present andb negb]. rewrite Htk.
  destruct (date_now env (world c)) as [ms w1]. cbn [fst snd].
  destruct (expiresAt tk <? ms / 1000 + refreshBuffer config); [|reflexivity].
  destruct (refreshAccessToken env config None (with_world c w1)) as [[d|e] c2];
    reflexivity.
Qed.

Lemma preflight_keeps_tokens (options : RequestOptions.t) (c : Client W) :
  tokens c <> None -> tokens (snd (preflight env config options c)) <> None.
Proof.
  intros Hheld.
  destruct (autoRefresh config && is_present (tokens c)
            && negb (is_true (RequestOptions.skipAuth options))) eqn:Hcond.
  2:{ rewrite (preflight_off options c Hcond). exact Hheld. }
  apply andb_prop in Hcond. destruct Hcond as [Hcond Hskip].
  apply andb_prop in Hcond. destruct Hcond as [Hauto _].
  apply negb_true_iff in Hskip.
  destruct (tokens c) as [tk|] eqn:Htk; [|congruence].
  rewrite (preflight_on options c tk Hauto Htk Hskip).
  set (c1 := with_world c (snd (date_now env (world c)))).
  assert (Hc1 : tokens c1 = Some tk) by exact Htk.
  destruct (expiresAt tk <? _); [|cbn; congruence].
  destruct (token_to_refresh_cases None c1) as [Hnone | (t & Ht & Hne)].
  - rewrite (refresh_stops_without_token env config None c1 Hnone). cbn. congruence.
  - destruct (refresh_run env config None c1 t Ht Hne)
      as (_ & [(d & _ & Htok & _) | (_ & Htok & _)]);
      destruct (refreshAccessToken env config None c1) as [[d'|e'] c2];
      cbn [snd] in *; congruence.
Qed.

Lemma request_keeps_tokens {T : Type} (as_T : Json -> result T) (method : Method)
    (path : string) (options : RequestOptions.t) (c : Client W) :
  tokens c <> None ->
  tokens (snd (request env config as_T method path options c)) <> None.
Proof.
  intros Hheld. rewrite request_steps. unfold bind at 1.
  pose proof (preflight_keeps_tokens options c Hheld) as Hpre.
  destruct (preflight env config options c) as [[[]|e] c1]; cbn [snd] in *; [|exact Hpre].
  unfold bind.
  pose proof (build_headers_run options c1) as [Hsame _].
  destruct (build_headers options c1) as [[headers|e] c2]; cbn [snd] in *; subst c2;
    [|exact Hpre].
  destruct (dispatch_run as_T (request_url path options)
              (init_of method headers options) c1) as (Htok & _).
  rewrite Htok. exact Hpre.
Qed.

Lemma network_error_catch {A : Type} (e : exn) (c : Client W) :
  @catch_network W A e c = (Throw (network_error e), c).
Proof.
  unfold catch_network, network_error, throw.
  destruct (isAbortError e); [reflexivity|].
  destruct (isFetchTypeError e); reflexivity.
Qed.

Lemma dispatch_result {T : Type} (as_T : Json -> result T) (url : string)
    (init : RequestInit.t) (c : Client W) :
  fst (dispatch env as_T url init c)
  = dispatch_outcome as_T (fst (fetch env url init (world c))).
Proof.
  unfold dispatch, try_catch, bind, await_fetch, updateRateLimitInfo, lift, throw,
    dispatch_outcome.
  destruct (fetch env url init (world c)) as [[response|e] w]; cbn [fst snd].
  2:{ rewrite network_error_catch. reflexivity. }
  destruct (Response.ok response); cbn [negb].
  - destruct (Response.json response) as [j|e].
    + destruct (as_T j) as [a|e]; [reflexivity|].
      rewrite network_error_catch. reflexivity.
    + rewrite network_error_catch. reflexivity.
  - rewrite network_error_catch. reflexivity.
Qed.

(** With the pre-flight check on and the held token inside the buffer
    window, [request] is the refresh followed by the rest of the method. *)
Lemma request_after_refresh {T : Type} (as_T : Json -> result T)
    (method : Method) (path : string) (options : RequestOptions.t)
    (c : Client W) (tk : StravaTokens) :
  autoRefresh config = true ->
  tokens c = Some tk ->
  is_true (RequestOptions.skipAuth options) = false ->
  expiresAt tk < fst (date_now env (world c)) / 1000 + refreshBuffer config ->
  request env config as_T method path options c
  = match refreshAccessToken env config None
            (with_world c (snd (date_now env (world c)))) with
    | (Ok _, c2) =>
        (headers <- build_headers options ;;
         dispatch env as_T (request_url path options)
           (init_of method headers options)) c2
    | (Throw e, c2) => (Throw e, c2)
    end.
Proof.
  intros Hauto Htk Hskip Hexp.
  rewrite request_steps. unfold bind at 1.
  rewrite (preflight_on options c tk Hauto Htk Hskip).
  apply Z.ltb_lt in Hexp. rewrite Hexp.
  destruct (refreshAccessToken env config None
              (with_world c (snd (date_now env (world c))))) as [[d|e] c2];
    reflexivity.
Qed.

(** What the rest of the method does once the refreshed tokens are held. *)
Lemma dispatch_with_token {T : Type} (as_T : Json -> result T)
    (method : Method) (path : string) (options : RequestOptions.t)
    (c2 : Client W) (held : StravaTokens) :
  is_true (RequestOptions.skipAuth options) = false ->
  tokens c2 = Some held ->
  let rest := (headers <- build_headers options ;;
               dispatch env as_T (request_url path options)
                 (init_of method headers options)) c2 in
  (accessToken held = "" -> rest = (Throw no_access_token, c2))
  /\ (accessToken held <> "" ->
      exists init,
        RequestInit.method init = method
        /\ Obj.get "Authorization" (RequestInit.headers init)
           = Some ("Bearer " ++ accessToken held)
        /\ trace (snd rest)
           = (trace c2 ++ [Fetched (request_url path options) init])%list
        /\ tokens (snd rest) = Some held
        /\ fst rest
           = dispatch_outcome as_T
               (fst (fetch env (request_url path options) init (world c2)))).
Proof.
  intros Hskip Htok. cbn zeta.
  unfold build_headers, getAuthHeaders, bind, this_tokens, ret, throw.
  rewrite Hskip. cbn [negb]. rewrite Htok. split.
  - intros Hempty. rewrite Hempty. reflexivity.
  - intros Hne.
    assert (Ht : Js.truthy (accessToken held) = true).
    { unfold Js.truthy.
      destruct (String.eqb_spec (accessToken held) ""); [contradiction|reflexivity]. }
    rewrite Ht.
    set (init := init_of method
                   (Obj.assign (base_headers options)
                      [("Authorization", "Bearer " ++ accessToken held)]) options).
    destruct (dispatch_run as_T (request_url path options) init c2)
      as (Htok' & Htr' & _).
    exists init. split; [reflexivity|]. split.
    { unfold init, init_of, Obj.assign.
      cbn [RequestInit.headers fold_left fst snd]. apply set_get_same. }
    split; [exact Htr'|]. split; [rewrite Htok'; exact Htok|].
    apply dispatch_result.
Qed.

(** C1, amended: with [autoRefresh] on, tokens held and authentication not
    skipped, when the held token expires before [now + refreshBuffer] the
    outcome of [request] is decided as follows.  Without a held refresh
    token it throws the token refresh error and nothing is sent.  When the
    service does not answer the refresh call with a token response it
    throws after that one call, the old tokens still held.  When the
    service answers with a token response the client holds the refreshed
    tokens; then, if the callback throws, or if the refreshed access token
    is empty, [request] throws after the refresh call and the callback and
    the request is not dispatched; otherwise the request is dispatched,
    after the refresh call and the callback, with the refreshed access
    token in its [Authorization] header, and its outcome is that of this
    one network call.  The expiry of the refreshed tokens is what the
    service sent; it is not checked against the buffer. *)
Theorem request_refreshes_first {T : Type} (as_T : Json -> result T)
    (method : Method) (path : string) (options : RequestOptions.t)
    (c : Client W) (tk : StravaTokens) :
  autoRefresh config = true ->
  tokens c = Some tk ->
  is_true (RequestOptions.skipAuth options) = false ->
  expiresAt tk < fst (date_now env (world c)) / 1000 + refreshBuffer config ->
  let refresh := refresh_init config (refreshToken tk) in
  let answer := fetch env token_url refresh (snd (date_now env (world c))) in
  let url := request_url path options in
  let r := fst (request env config as_T method path options c) in
  let c' := snd (request env config as_T method path options c) in
  (refreshToken tk = "" ->
     r = Throw (StravaTokenRefreshError "No refresh token available")
     /\ trace c' = trace c /\ tokens c' = Some tk)
  /\ (refreshToken tk <> "" ->
      ((forall data, ~ answers_with (fst answer) data) ->
         (exists e, r = Throw e)
         /\ trace c' = (trace c ++ [Fetched token_url refresh])%list
         /\ tokens c' = Some tk)
      /\ (forall data,
            answers_with (fst answer) data ->
            let refreshed := tokens_of_response data in
            let notified := onTokenRefresh config refreshed (snd answer) in
            tokens c' = Some refreshed
            /\ (forall e,
                  fst notified = Throw e ->
                  r = Throw (rethrown e)
                  /\ trace c' = (trace c ++ [Fetched token_url refresh;
                                             Notified refreshed])%list)
            /\ (fst notified = Ok tt -> access_token data = "" ->
                r = Throw no_access_token
                /\ trace c' = (trace c ++ [Fetched token_url refresh;
                                           Notified refreshed])%list)
            /\ (fst notified = Ok tt -> access_token data <> "" ->
                exists init,
                  trace c' = (trace c ++ [Fetched token_url refresh;
                                          Notified refreshed;
                                          Fetched url init])%list
                  /\ RequestInit.method init = method
                  /\ Obj.get "Authorization" (RequestInit.headers init)
                     = Some ("Bearer " ++ access_token data)
                  /\ r = dispatch_outcome as_T
                           (fst (fetch env url init (snd notified)))))).
Proof.
  intros Hauto Htk Hskip Hexp. cbn zeta.
  rewrite (request_after_refresh as_T method path options c tk Hauto Htk Hskip Hexp).
  set (c1 := with_world c (snd (date_now env (world c)))).
  assert (Hc1 : tokens c1 = Some tk) by exact Htk.
  assert (Ht : token_to_refresh None c1 = Some (refreshToken tk)).
  { unfold token_to_refresh. rewrite Hc1. reflexivity. }
  split.
  { intros Hempty.
    rewrite (refresh_stops_without_token env config None c1)
      by (right; rewrite Ht, Hempty; reflexivity).
    cbn [fst snd]. auto. }
  intros Hne.
  pose proof (refresh_run env config None c1 _ Ht Hne) as Hrun. cbn zeta in Hrun.
  change (world c1) with (snd (date_now env (world c))) in Hrun.
  change (trace c1) with (trace c) in Hrun.
  destruct (refreshAccessToken env config None c1) as [[d|e] c2]; cbn [fst snd] in Hrun.
  - (* the refresh call returned *)
    destruct Hrun as (_ & [(data & Hans & Htok & Htr & Hw & Hr) | (_ & _ & _ & _ & e & Hr)]);
      [|discriminate Hr].
    split.
    { intros Hnot. exfalso. exact (Hnot data Hans). }
    intros data' Hans'. cbn zeta.
    rewrite (answers_with_unique _ _ _ Hans' Hans).
    destruct (fst (onTokenRefresh config (tokens_of_response data)
                     (snd (fetch env token_url (refresh_init config (refreshToken tk))
                             (snd (date_now env (world c)))))))
      as [[]|e] eqn:Hcb; [|discriminate Hr].
    destruct (dispatch_with_token as_T method path options c2
                (tokens_of_response data) Hskip Htok) as [Hempty Hfull].
    cbn zeta in Hempty, Hfull.
    change (accessToken (tokens_of_response data)) with (access_token data) in *.
    destruct (String.eqb_spec (access_token data) "") as [Hacc | Hacc].
    + rewrite (Hempty Hacc). cbn [fst snd].
      split; [exact Htok|]. split; [intros e He; discriminate He|].
      split; [intros _ _; split; [reflexivity | exact Htr]|].
      intros _ Hcontra. contradiction.
    + destruct (Hfull Hacc) as (init & Hm & Hget & Htr' & Htok' & Hres).
      split; [exact Htok'|]. split; [intros e He; discriminate He|].
      split; [intros _ Hcontra; contradiction|].
      intros _ _. exists init.
      split; [rewrite Htr', Htr, <- List.app_assoc; reflexivity|].
      split; [exact Hm|]. split; [exact Hget|].
      rewrite Hres, Hw. reflexivity.
  - (* the refresh call threw *)
    cbn [fst snd].
    destruct Hrun as (_ & [(data & Hans & Htok & Htr & _ & Hr) | (Hnot & Htok & Htr & _)]).
    + split.
      { intros Hnot. exfalso. exact (Hnot data Hans). }
      intros data' Hans'. cbn zeta.
      rewrite (answers_with_unique _ _ _ Hans' Hans).
      destruct (fst (onTokenRefresh config (tokens_of_response data)
                       (snd (fetch env token_url (refresh_init config (refreshToken tk))
                               (snd (date_now env (world c)))))))
        as [[]|e'] eqn:Hcb; [discriminate Hr|].
      inversion Hr; subst e.
      split; [exact Htok|]. split.
      { intros e He. inversion He; subst. split; [reflexivity | exact Htr]. }
      split; intros Hcontra; discriminate Hcontra.
    + split.
      { intros _. split; [eauto|]. split; [exact Htr|]. rewrite Htok. exact Hc1. }
      intros data Hans. exfalso. exact (Hnot data Hans).
Qed.

(** C3, amended: [deauthorize] clears the local tokens only when the
    revoke request succeeded.  When the request throws, the error goes to
    the caller, the client is left as the request left it, and tokens that
    were held are still held (those held before, or refreshed ones). *)
Theorem deauthorize_clears_after_success (c : Client W) :
  let revoke := request env config as_void POST "/oauth/deauthorize"
                  RequestOptions.empty c in
  match fst (deauthorize env config c) with
  | Ok _ =>
      fst revoke = Ok tt
      /\ tokens (snd (deauthorize env config c)) = None
  | Throw e =>
      deauthorize env config c = (Throw e, snd revoke)
      /\ fst revoke = Throw e
      /\ (tokens c <> None -> tokens (snd (deauthorize env config c)) <> None)
  end.
Proof.
  cbn zeta.
  pose proof (request_keeps_tokens as_void POST "/oauth/deauthorize"
                RequestOptions.empty c) as Hkeep.
  unfold deauthorize, bind, clearTokens, assign_tokens.
  destruct (request env config as_void POST "/oauth/deauthorize"
              RequestOptions.empty c) as [[[]|e] c1]; cbn [fst snd] in *.
  - split; reflexivity.
  - repeat split. exact Hkeep.
Qed.

End Dispatch.

(** ** Pagination *)

Section Pagination.

Context {W : Type} (env : Environment W) (config : Config W).

Variable options : GetActivitiesOptions.

Local Abbreviation perPage := (number_or (per_page options) 200).

Lemma is_last_tests (p : list StravaActivity) :
  (is_last options p ->
     (List.length p =? 0)%nat = true
     \/ ((List.length p =? 0)%nat = false
         /\ (Z.of_nat (List.length p) <? perPage) = true))
  /\ (~ is_last options p ->
      (List.length p =? 0)%nat = false
      /\ (Z.of_nat (List.length p) <? perPage) = false).
Proof.
  unfold is_last. split.
  - intros [H0 | Hlt].
    + left. apply Nat.eqb_eq. exact H0.
    + destruct (Nat.eqb_spec (List.length p) 0); [left; reflexivity|].
      right. split; [reflexivity|]. apply Z.ltb_lt. exact Hlt.
  - intros Hnot. split.
    + apply Nat.eqb_neq. intros H0. apply Hnot. left. exact H0.
    + apply Z.ltb_ge. destruct (Z.lt_ge_cases (Z.of_nat (List.length p)) perPage);
        [exfalso; apply Hnot; right; assumption | lia].
Qed.

Lemma loop_returns (k : Z) (c c' : Client W) (ps : list (list StravaActivity)) :
  pages_served env config options k c ps c' ->
  forall (fuel : nat) (acc : list StravaActivity),
    (List.length ps <= fuel)%nat ->
    getAllActivities_loop env config fuel options perPage k acc c
    = (Ok (Some (acc ++ List.concat ps)%list), c').
Proof.
  induction 1 as [k c c' p Hget Hlast | k c c1 c' p ps Hget Hmore Hrest IH];
    intros fuel acc Hfuel; (destruct fuel as [|fuel]; [cbn in Hfuel; lia|]);
    cbn [getAllActivities_loop]; unfold bind; rewrite Hget.
  - cbn [List.concat]. rewrite List.app_nil_r.
    destruct (proj1 (is_last_tests p) Hlast) as [H0 | [H0 Hlt]]; rewrite H0.
    + apply Nat.eqb_eq in H0. apply length_zero_iff_nil in H0. subst p.
      rewrite List.app_nil_r. reflexivity.
    + rewrite Hlt. reflexivity.
  - destruct (proj2 (is_last_tests p) Hmore) as [H0 Hge]. rewrite H0, Hge.
    rewrite IH by (cbn in Hfuel; lia).
    cbn [List.concat]. rewrite List.app_assoc. reflexivity.
Qed.

Lemma loop_needs_fuel (k : Z) (c c' : Client W) (ps : list (list StravaActivity)) :
  pages_served env config options k c ps c' ->
  forall (fuel : nat) (acc : list StravaActivity),
    (fuel < List.length ps)%nat ->
    fst (getAllActivities_loop env config fuel options perPage k acc c) = Ok None.
Proof.
  induction 1 as [k c c' p Hget Hlast | k c c1 c' p ps Hget Hmore Hrest IH];
    intros fuel acc Hfuel; (destruct fuel as [|fuel]; [reflexivity|]).
  - cbn in Hfuel. lia.
  - cbn [getAllActivities_loop]. unfold bind. rewrite Hget.
    destruct (proj2 (is_last_tests p) Hmore) as [H0 Hge]. rewrite H0, Hge.
    apply IH. cbn in Hfuel. lia.
Qed.

Lemma loop_pages (fuel : nat) :
  forall (k : Z) (acc l : list StravaActivity) (c c' : Client W),
    getAllActivities_loop env config fuel options perPage k acc c = (Ok (Some l), c') ->
    exists ps, pages_served env config options k c ps c' /\ l = (acc ++ List.concat ps)%list
               /\ (List.length ps <= fuel)%nat.
Proof.
  induction fuel as [|fuel IH]; intros k acc l c c' Hrun.
  - discriminate Hrun.
  - cbn [getAllActivities_loop] in Hrun. unfold bind in Hrun.
    destruct (getActivities env config (page_options options k perPage) c)
      as [[p|e] c1] eqn:Hget; [|discriminate Hrun].
    destruct (List.length p =? 0)%nat eqn:H0.
    + inversion Hrun; subst. exists [p]. split; [|split].
      * apply served_last; [exact Hget|]. left. apply Nat.eqb_eq. exact H0.
      * apply Nat.eqb_eq in H0. apply length_zero_iff_nil in H0. subst p.
        cbn. rewrite List.app_nil_r. reflexivity.
      * cbn. lia.
    + destruct (Z.of_nat (List.length p) <? perPage) eqn:Hlt.
      * inversion Hrun; subst. exists [p]. split; [|split].
        -- apply served_last; [exact Hget|]. right. apply Z.ltb_lt. exact Hlt.
        -- cbn. rewrite List.app_nil_r. reflexivity.
        -- cbn. lia.
      * destruct (IH _ _ _ _ _ Hrun) as (ps & Hps & Hl & Hlen).
        exists (p :: ps). split; [|split].
        -- apply served_more with (c1 := c1); [exact Hget| |exact Hps].
           intros [Hz | Hs].
           ++ apply Nat.eqb_neq in H0. contradiction.
           ++ apply Z.ltb_ge in Hlt. lia.
        -- rewrite Hl. cbn [List.concat]. rewrite List.app_assoc. reflexivity.
        -- cbn. lia.
Qed.

End Pagination.

Section PageRequests.

Context {W : Type} (env : Environment W) (config : Config W).

Lemma get_urls_app (l1 l2 : list event) :
  get_urls (l1 ++ l2) = (get_urls l1 ++ get_urls l2)%list.
Proof.
  apply flat_map_app.
Qed.

(** The pre-flight check makes no GET request. *)
Lemma preflight_get_urls (options : RequestOptions.t) (c : Client W) :
  get_urls (trace (snd (preflight env config options c))) = get_urls (trace c).
Proof.
  destruct (autoRefresh config && is_present (tokens c)
            && negb (is_true (RequestOptions.skipAuth options))) eqn:Hcond.
  2:{ rewrite (preflight_off env config options c Hcond). reflexivity. }
  apply andb_prop in Hcond. destruct Hcond as [Hcond Hskip].
  apply andb_prop in Hcond. destruct Hcond as [Hauto Hheld].
  apply negb_true_iff in Hskip.
  destruct (tokens c) as [tk|] eqn:Htk; [|discriminate Hheld].
  rewrite (preflight_on env config options c tk Hauto Htk Hskip).
  set (c1 := with_world c (snd (date_now env (world c)))).
  destruct (expiresAt tk <? _); [|reflexivity].
  destruct (token_to_refresh_cases None c1) as [Hnone | (t & Ht & Hne)].
  - rewrite (refresh_stops_without_token env config None c1 Hnone). reflexivity.
  - destruct (refresh_run env config None c1 t Ht Hne)
      as (_ & [(d & _ & _ & Htr & _) | (_ & _ & Htr & _)]);
      destruct (refreshAccessToken env config None c1) as [[d'|e'] c2];
      cbn [snd] in *; rewrite Htr, get_urls_app; cbn; apply List.app_nil_r.
Qed.

(** A GET request that returns has made exactly one GET request, to the
    URL built from its path and options. *)
Lemma request_get_urls {T : Type} (as_T : Json -> result T) (path : string)
    (options : RequestOptions.t) (c c' : Client W) (a : T) :
  request env config as_T GET path options c = (Ok a, c') ->
  get_urls (trace c') = (get_urls (trace c) ++ [request_url path options])%list.
Proof.
  rewrite request_steps. unfold bind at 1.
  pose proof (preflight_get_urls options c) as Hpre.
  destruct (preflight env config options c) as [[[]|e] c1]; cbn [snd] in Hpre;
    [|discriminate].
  unfold bind.
  pose proof (build_headers_run options c1) as [Hsame _].
  destruct (build_headers options c1) as [[headers|e] c2]; cbn [snd] in Hsame;
    subst c2; [|discriminate].
  destruct (dispatch_run env as_T (request_url path options)
              (init_of GET headers options) c1) as (_ & Htr & _).
  intros Hrun. rewrite Hrun in Htr. cbn [snd] in Htr.
  rewrite Htr, get_urls_app, Hpre. reflexivity.
Qed.

Lemma number_or_nonzero (a : option Z) (d : Z) : d <> 0 -> number_or a d <> 0.
Proof.
  intros Hd. unfold number_or. destruct a as [n|]; [|exact Hd].
  destruct (Z.eqb_spec n 0); assumption.
Qed.

Lemma number_or_some (n d : Z) : n <> 0 -> number_or (Some n) d = n.
Proof.
  intros Hn. unfold number_or. destruct (Z.eqb_spec n 0); [contradiction | reflexivity].
Qed.

Lemma getActivities_get_urls (options : GetActivitiesOptions) (perPage k : Z)
    (c c' : Client W) (p : list StravaActivity) :
  k <> 0 -> perPage <> 0 ->
  getActivities env config (page_options options k perPage) c = (Ok p, c') ->
  get_urls (trace c') = (get_urls (trace c) ++ [page_url options perPage k])%list.
Proof.
  intros Hk Hp Hrun. unfold getActivities in Hrun.
  apply request_get_urls in Hrun. rewrite Hrun.
  unfold page_url, activities_params, page_options. cbn [before after page per_page].
  rewrite (number_or_some k 1 Hk), (number_or_some perPage 30 Hp). reflexivity.
Qed.

Lemma pages_served_get_urls (options : GetActivitiesOptions) (k : Z)
    (c c' : Client W) (ps : list (list StravaActivity)) :
  pages_served env config options k c ps c' ->
  1 <= k ->
  get_urls (trace c')
  = (get_urls (trace c)
     ++ map (fun i => page_url options (number_or (per_page options) 200)
                        (k + Z.of_nat i))
            (seq 0 (List.length ps)))%list.
Proof.
  pose proof (number_or_nonzero (per_page options) 200 ltac:(discriminate)) as Hp.
  induction 1 as [k c c' p Hget Hlast | k c c1 c' p ps Hget Hmore Hrest IH];
    intros Hk; assert (Hk0 : k <> 0) by lia.
  - rewrite (getActivities_get_urls _ _ _ _ _ _ Hk0 Hp Hget).
    cbn. rewrite Z.add_0_r. reflexivity.
  - rewrite IH by lia.
    rewrite (getActivities_get_urls _ _ _ _ _ _ Hk0 Hp Hget).
    rewrite <- List.app_assoc. f_equal. cbn [List.length seq map List.app].
    rewrite Z.add_0_r. f_equal.
    rewrite <- seq_shift, map_map. apply map_ext. intros i. f_equal. lia.
Qed.

(** C6: [getAllActivities] asks for page 1, 2, 3, ... at the requested
    page size (200 when none is given), one request after the other, and
    stops exactly at the first page that is empty or shorter than the page
    size: when the calls of [getActivities] for these pages return [ps],
    the last of which is the first such page, the loop takes exactly
    [length ps] iterations and returns the pages concatenated in order; the
    GET requests made are those for pages [1 .. length ps] in this order.
    Conversely every list it returns arises in this way. *)
Theorem getAllActivities_pages (options : GetActivitiesOptions) (c : Client W) :
  let perPage := number_or (per_page options) 200 in
  (forall ps c',
     pages_served env config options 1 c ps c' ->
     (forall fuel,
        ((List.length ps <= fuel)%nat ->
         getAllActivities env config fuel options c = (Ok (Some (List.concat ps)), c'))
        /\ ((fuel < List.length ps)%nat ->
            fst (getAllActivities env config fuel options c) = Ok None))
     /\ get_urls (trace c')
        = (get_urls (trace c)
           ++ map (fun i => page_url options perPage (Z.of_nat i))
                  (seq 1 (List.length ps)))%list)
  /\ (forall fuel l c',
        getAllActivities env config fuel options c = (Ok (Some l), c') ->
        exists ps, pages_served env config options 1 c ps c'
                   /\ l = List.concat ps /\ (List.length ps <= fuel)%nat).
Proof.
  cbn zeta. split.
  - intros ps c' Hps. split.
    + intros fuel. unfold getAllActivities. split; intros Hfuel.
      * apply (loop_returns env config options 1 c c' ps Hps fuel [] Hfuel).
      * apply (loop_needs_fuel env config options 1 c c' ps Hps fuel [] Hfuel).
    + rewrite (pages_served_get_urls options 1 c c' ps Hps) by lia.
      f_equal. rewrite <- seq_shift, map_map. apply map_ext. intros i.
      f_equal. lia.
  - intros fuel l c' Hrun. unfold getAllActivities in Hrun.
    apply loop_pages in Hrun. exact Hrun.
Qed.

End PageRequests.

(** ** Concrete runs *)

Lemma hasValidTokens_iff_witness :
  exists b c',
    hasValidTokens scripted_env (scripted_client (Some fresh_tokens) None now_ms [])
    = (Ok b, c')
    /\ tokens c' = Some fresh_tokens
    /\ (b = true <->
        exists tk, Some fresh_tokens = Some tk /\ now_ms / 1000 < expiresAt tk)
    /\ (Some fresh_tokens = None -> b = false)
    /\ (forall tk, Some fresh_tokens = Some tk ->
          expiresAt tk <= now_ms / 1000 -> b = false).
Proof.
  exact (hasValidTokens_iff scripted_env
           (scripted_client (Some fresh_tokens) None now_ms [])).
Defined.

Lemma getAllActivities_pages_witness :
  getAllActivities scripted_env (scripted_config true 600 None) 3 two_per_page
    paging_client
  = (Ok (Some [activity 1; activity 2; activity 3; activity 4; activity 5]),
     snd (getAllActivities scripted_env (scripted_config true 600 None) 3
            two_per_page paging_client))
  /\ get_urls (trace (snd (getAllActivities scripted_env
                             (scripted_config true 600 None) 3 two_per_page
                             paging_client)))
     = ["https://www.strava.com/api/v3/athlete/activities?page=1&per_page=2";
        "https://www.strava.com/api/v3/athlete/activities?page=2&per_page=2";
        "https://www.strava.com/api/v3/athlete/activities?page=3&per_page=2"].
Proof.
  assert (Hps : pages_served scripted_env (scripted_config true 600 None)
                  two_per_page 1 paging_client
                  [[activity 1; activity 2]; [activity 3; activity 4]; [activity 5]]
                  (snd (getAllActivities scripted_env
                          (scripted_config true 600 None) 3 two_per_page
                          paging_client))).
  { eapply served_more; [vm_compute; reflexivity | |].
    { unfold is_last. cbn. lia. }
    eapply served_more; [vm_compute; reflexivity | |].
    { unfold is_last. cbn. lia. }
    apply served_last; [vm_compute; reflexivity|].
    unfold is_last. cbn. lia. }
  destruct (proj1 (getAllActivities_pages scripted_env
                     (scripted_config true 600 None) two_per_page paging_client)
              _ _ Hps) as [Hfuel Hurls].
  split.
  - apply (proj1 (Hfuel 3%nat)). cbn. lia.
  - exact Hurls.
Defined.

(** The claim C1 as the specification states it fails: the request is
    dispatched with the refreshed token although that token, too, expires
    within the buffer window. *)
Lemma refreshed_token_within_buffer :
  let run := getActivities scripted_env wide_buffer no_options stale_client in
  fst run = Ok [activity 1]
  /\ trace (snd run)
     = [Fetched token_url (refresh_init wide_buffer "old-refresh");
        Notified (tokens_of_response token_response);
        authorized_get
          "https://www.strava.com/api/v3/athlete/activities?page=1&per_page=30"
          "new-access"]
  /\ tokens (snd run) = Some (tokens_of_response token_response)
  /\ expiresAt (tokens_of_response token_response)
     < now_ms / 1000 + refreshBuffer wide_buffer.
Proof.
  cbn zeta. repeat split.
Qed.

Lemma stale_token_expires :
  expiresAt held_tokens
  < fst (date_now scripted_env (world stale_client)) / 1000
    + refreshBuffer wide_buffer.
Proof.
  vm_compute. reflexivity.
Qed.

Lemma stale_refresh_token : refreshToken held_tokens <> "".
Proof.
  discriminate.
Qed.

Lemma stale_refresh_answered :
  answers_with
    (fst (fetch scripted_env token_url
            (refresh_init wide_buffer (refreshToken held_tokens))
            (snd (date_now scripted_env (world stale_client)))))
    token_response.
Proof.
  eexists. repeat split.
Qed.

Lemma refreshed_access_token : access_token token_response <> "".
Proof.
  discriminate.
Qed.

Lemma request_refreshes_first_witness :
  let options := params_only (activities_params no_options) in
  let refresh := refresh_init wide_buffer (refreshToken held_tokens) in
  let answer := fetch scripted_env token_url refresh
                  (snd (date_now scripted_env (world stale_client))) in
  let refreshed := tokens_of_response token_response in
  let notified := onTokenRefresh wide_buffer refreshed (snd answer) in
  let run := request scripted_env wide_buffer as_activities GET
               "/athlete/activities" options stale_client in
  exists init,
    trace (snd run)
    = (trace stale_client
       ++ [Fetched token_url refresh; Notified refreshed;
           Fetched (request_url "/athlete/activities" options) init])%list
    /\ RequestInit.method init = GET
    /\ Obj.get "Authorization" (RequestInit.headers init)
       = Some ("Bearer " ++ access_token token_response)
    /\ fst run
       = dispatch_outcome as_activities
           (fst (fetch scripted_env (request_url "/athlete/activities" options)
                   init (snd notified))).
Proof.
  exact (proj2 (proj2 (proj2
           (proj2 (proj2 (request_refreshes_first scripted_env wide_buffer
                            as_activities GET "/athlete/activities"
                            (params_only (activities_params no_options))
                            stale_client held_tokens
                            eq_refl eq_refl eq_refl stale_token_expires)
                         stale_refresh_token)
              token_response stale_refresh_answered)))
           eq_refl refreshed_access_token).
Defined.

(** The claim C3 as the specification states it fails: when the revoke
    request is answered with status 401, [deauthorize] throws and the
    tokens are still held. *)
Lemma failed_revoke_keeps_tokens :
  let run := deauthorize scripted_env (scripted_config true 600 None)
               revoking_client in
  fst run = Throw (StravaHttpError 401 (JRaw "Authorization Error")
                     [] None)
  /\ tokens (snd run) = Some fresh_tokens
  /\ tokens (snd run) <> None.
Proof.
  cbn zeta. repeat split. discriminate.
Qed.

Lemma deauthorize_clears_after_success_witness :
  let config := scripted_config true 600 None in
  let revoke := request scripted_env config as_void POST "/oauth/deauthorize"
                  RequestOptions.empty revoking_client in
  match fst (deauthorize scripted_env config revoking_client) with
  | Ok _ =>
      fst revoke = Ok tt
      /\ tokens (snd (deauthorize scripted_env config revoking_client)) = None
  | Throw e =>
      deauthorize scripted_env config revoking_client = (Throw e, snd revoke)
      /\ fst revoke = Throw e
      /\ (tokens revoking_client <> None ->
          tokens (snd (deauthorize scripted_env config revoking_client)) <> None)
  end.
Proof.
  exact (deauthorize_clears_after_success scripted_env
           (scripted_config true 600 None) revoking_client).
Defined.

Lemma exchange_answered :
  answers_with
    (fst (fetch scripted_env token_url
            (exchange_init (scripted_config true 600 None) "code")
            (world (token_client None))))
    token_response.
Proof.
  eexists. repeat split.
Qed.

Lemma refresh_answered :
  answers_with
    (fst (fetch scripted_env token_url
            (refresh_init (scripted_config true 600 None) "old-refresh")
            (world (token_client (Some held_tokens)))))
    token_response.
Proof.
  eexists. repeat split.
Qed.

Lemma old_refresh_token : "old-refresh" <> "".
Proof.
  discriminate.
Qed.

Lemma token_calls_hold_response_witness :
  let config := scripted_config true 600 None in
  let exchanged := exchangeAuthorizationCode scripted_env config "code"
                     (token_client None) in
  let refreshed := refreshAccessToken scripted_env config None
                     (token_client (Some held_tokens)) in
  (fst exchanged = Ok token_response
   /\ tokens (snd exchanged)
      = Some {| accessToken := access_token token_response;
                refreshToken := refresh_token token_response;
                expiresAt := expires_at token_response |}
   /\ trace (snd exchanged)
      = (trace (token_client None)
         ++ [Fetched token_url (exchange_init config "code")])%list)
  /\ (fst refreshed = Ok token_response
      /\ tokens (snd refreshed)
         = Some {| accessToken := access_token token_response;
                   refreshToken := refresh_token token_response;
                   expiresAt := expires_at token_response |}
      /\ trace (snd refreshed)
         = (trace (token_client (Some held_tokens))
            ++ [Fetched token_url (refresh_init config "old-refresh");
                Notified (tokens_of_response token_response)])%list).
Proof.
  exact (conj
           (proj1 (proj2 (token_calls_hold_response scripted_env
                            (scripted_config true 600 None)))
              "code" (token_client None) token_response exchange_answered)
           (proj1 (proj2 (proj2 (proj2 (token_calls_hold_response scripted_env
                                          (scripted_config true 600 None)))))
              None (token_client (Some held_tokens)) "old-refresh" token_response
              eq_refl old_refresh_token refresh_answered eq_refl)).
Defined.

Lemma exchange_never_notifies_witness :
  let config := scripted_config true 600 None in
  let c' := snd (exchangeAuthorizationCode scripted_env config "code"
                   (token_client None)) in
  (exists added,
      trace c' = added
      /\ added = [Fetched token_url (exchange_init config "code")]
      /\ forall t, ~ In (Notified t) added)
  /\ world c' = {| clock_ms := now_ms; script := [] |}
  /\ (forall data,
        fst (exchangeAuthorizationCode scripted_env config "code"
               (token_client None)) = Ok data ->
        tokens c' = Some (tokens_of_response data)).
Proof.
  exact (exchange_never_notifies scripted_env (scripted_config true 600 None)
           "code" (token_client None)).
Defined.

(** ** Requests that need no refresh *)

Section ReadyRequests.

Context {W : Type} (env : Environment W) (config : Config W).

(** Without a refresh the pre-flight check succeeds and at most reads the
    clock. *)
Lemma preflight_idle (options : RequestOptions.t) (c : Client W) :
  needs_no_refresh env config c ->
  fst (preflight env config options c) = Ok tt
  /\ tokens (after_preflight env config options c) = tokens c
  /\ trace (after_preflight env config options c) = trace c
  /\ rateLimitInfo (after_preflight env config options c) = rateLimitInfo c.
Proof.
  intros Hidle. unfold after_preflight.
  destruct (autoRefresh config && is_present (tokens c)
            && negb (is_true (RequestOptions.skipAuth options))) eqn:Hcond.
  2:{ rewrite (preflight_off env config options c Hcond). auto. }
  apply andb_prop in Hcond. destruct Hcond as [Hcond Hskip].
  apply andb_prop in Hcond. destruct Hcond as [Hauto Hheld].
  apply negb_true_iff in Hskip.
  destruct (tokens c) as [tk|] eqn:Htk; [|discriminate Hheld].
  rewrite (preflight_on env config options c tk Hauto Htk Hskip).
  destruct Hidle as [Hoff | Hfresh]; [congruence|].
  specialize (Hfresh tk Htk). apply Z.ltb_ge in Hfresh. rewrite Hfresh.
  cbn. auto.
Qed.

Lemma request_ready {T : Type} (as_T : Json -> result T) (method : Method)
    (path : string) (options : RequestOptions.t) (c : Client W) (tk : StravaTokens) :
  needs_no_refresh env config c ->
  tokens c = Some tk ->
  accessToken tk <> "" ->
  is_true (RequestOptions.skipAuth options) = false ->
  request env config as_T method path options c
  = dispatch env as_T (request_url path options)
      (authorized_init method options tk) (after_preflight env config options c).
Proof.
  intros Hidle Htk Hacc Hskip.
  destruct (preflight_idle options c Hidle) as (Hok & Htok & _).
  rewrite request_steps. unfold bind at 1. unfold after_preflight in *.
  destruct (preflight env config options c) as [[[]|e] c1]; cbn [fst snd] in *;
    [|discriminate Hok].
  unfold build_headers, getAuthHeaders, bind, this_tokens, ret.
  rewrite Hskip. cbn [negb]. rewrite Htok, Htk.
  assert (Ht : Js.truthy (accessToken tk) = true).
  { unfold Js.truthy. destruct (String.eqb_spec (accessToken tk) ""); [contradiction|reflexivity]. }
  rewrite Ht. reflexivity.
Qed.

Lemma request_stops_without_tokens {T : Type} (as_T : Json -> result T)
    (method : Method) (path : string) (options : RequestOptions.t) (c : Client W) :
  tokens c = None ->
  is_true (RequestOptions.skipAuth options) = false ->
  request env config as_T method path options c = (Throw no_access_token, c).
Proof.
  intros Hnone Hskip. rewrite request_steps. unfold bind at 1.
  rewrite preflight_off
    by (rewrite Hnone; cbn; rewrite andb_false_r; reflexivity).
  unfold build_headers, getAuthHeaders, bind, this_tokens, throw.
  rewrite Hskip. cbn [negb]. rewrite Hnone. reflexivity.
Qed.

(** X1: without tokens no endpoint method reaches the network: each one
    throws the validation error and leaves the client, its trace and the
    world as they were. *)
Theorem endpoints_stop_without_tokens (c : Client W) :
  tokens c = None ->
  getAthlete env config c = (Throw no_access_token, c)
  /\ (forall id, getAthleteStats env config id c = (Throw no_access_token, c))
  /\ (forall options, getActivities env config options c = (Throw no_access_token, c))
  /\ (forall id all, getActivity env config id all c = (Throw no_access_token, c))
  /\ (forall id options,
        getActivityStreams env config id options c = (Throw no_access_token, c))
  /\ (forall id, getActivityZones env config id c = (Throw no_access_token, c))
  /\ (forall id, getActivityLaps env config id c = (Throw no_access_token, c))
  /\ deauthorize env config c = (Throw no_access_token, c).
Proof.
  intros Hnone.
  repeat split; intros;
    try (apply request_stops_without_tokens; [exact Hnone | reflexivity]).
  unfold deauthorize, bind.
  rewrite request_stops_without_tokens by (try exact Hnone; reflexivity).
  reflexivity.
Qed.

(** X2: when no refresh is needed and an access token is held, [request]
    makes exactly one network call, to the URL built from its path and
    options, with the given method and body and with the held access token
    in the [Authorization] header, whatever headers the caller supplies;
    the held tokens are not touched. *)
Theorem request_without_refresh {T : Type} (as_T : Json -> result T)
    (method : Method) (path : string) (options : RequestOptions.t)
    (c : Client W) (tk : StravaTokens) :
  needs_no_refresh env config c ->
  tokens c = Some tk ->
  accessToken tk <> "" ->
  is_true (RequestOptions.skipAuth options) = false ->
  let c' := snd (request env config as_T method path options c) in
  exists init,
    trace c' = (trace c ++ [Fetched (request_url path options) init])%list
    /\ RequestInit.method init = method
    /\ RequestInit.body init = RequestOptions.body options
    /\ Obj.get "Authorization" (RequestInit.headers init)
       = Some ("Bearer " ++ accessToken tk)
    /\ tokens c' = Some tk.
Proof.
  intros Hidle Htk Hacc Hskip. cbn zeta.
  rewrite (request_ready as_T method path options c tk Hidle Htk Hacc Hskip).
  destruct (preflight_idle options c Hidle) as (_ & Htok & Htr & _).
  destruct (dispatch_run env as_T (request_url path options)
              (authorized_init method options tk)
              (after_preflight env config options c)) as (Htok' & Htr' & _).
  exists (authorized_init method options tk).
  split; [rewrite Htr', Htr; reflexivity|].
  split; [reflexivity|]. split; [reflexivity|].
  split.
  - unfold authorized_init, init_of, Obj.assign. cbn [RequestInit.headers fold_left fst snd].
    apply set_get_same.
  - rewrite Htok', Htok. exact Htk.
Qed.

(** X3: when [fetch] rejects, or the body of a successful response cannot
    be read, [request] throws what its [catch] block makes of the error:
    the timeout error for an [AbortError], the network error for a
    [TypeError] whose message mentions fetch, and the error itself
    otherwise.  Tokens and rate limit information stay as they were when
    [fetch] rejected. *)
Theorem request_network_failure {T : Type} (as_T : Json -> result T)
    (method : Method) (path : string) (options : RequestOptions.t)
    (c : Client W) (tk : StravaTokens) :
  needs_no_refresh env config c ->
  tokens c = Some tk ->
  accessToken tk <> "" ->
  is_true (RequestOptions.skipAuth options) = false ->
  let answer := fst (fetch env (request_url path options)
                       (authorized_init method options tk)
                       (world (after_preflight env config options c))) in
  let run := request env config as_T method path options c in
  (forall e, answer = Throw e ->
     fst run = Throw (network_error e)
     /\ tokens (snd run) = Some tk
     /\ rateLimitInfo (snd run) = rateLimitInfo c)
  /\ (forall response e,
        answer = Ok response -> Response.ok response = true ->
        Response.json response = Throw e ->
        fst run = Throw (network_error e)).
Proof.
  intros Hidle Htk Hacc Hskip. cbn zeta.
  rewrite (request_ready as_T method path options c tk Hidle Htk Hacc Hskip).
  destruct (preflight_idle options c Hidle) as (_ & Htok & _ & Hrl).
  destruct (dispatch_run env as_T (request_url path options)
              (authorized_init method options tk)
              (after_preflight env config options c)) as (Htok' & _ & _ & Hrl').
  rewrite dispatch_result. split.
  - intros e He. rewrite He in *. cbn [dispatch_outcome].
    split; [reflexivity|]. split; [rewrite Htok', Htok; exact Htk|].
    rewrite Hrl', Hrl. reflexivity.
  - intros response e He Hok Hj. rewrite He. cbn [dispatch_outcome].
    rewrite Hok, Hj. reflexivity.
Qed.

(** X4: a response with a status that is not OK makes [request] throw the
    error [parseStravaError] builds from the status, the body (an empty
    object when the body is no JSON), the headers and no context; the rate
    limit information is updated from the headers of that response all the
    same, and the tokens stay. *)
Theorem request_http_failure {T : Type} (as_T : Json -> result T)
    (method : Method) (path : string) (options : RequestOptions.t)
    (c : Client W) (tk : StravaTokens) (response : Response.t) :
  needs_no_refresh env config c ->
  tokens c = Some tk ->
  accessToken tk <> "" ->
  is_true (RequestOptions.skipAuth options) = false ->
  fst (fetch env (request_url path options) (authorized_init method options tk)
         (world (after_preflight env config options c))) = Ok response ->
  Response.ok response = false ->
  let run := request env config as_T method path options c in
  fst run = Throw (parseStravaError (Response.status response)
                     (match Response.json response with
                      | Ok data => data
                      | Throw _ => JRaw "{}"
                      end)
                     (Response.headers response) None)
  /\ rateLimitInfo (snd run)
     = updateRateLimitInfo_pure (Response.headers response) (rateLimitInfo c)
  /\ tokens (snd run) = Some tk.
Proof.
  intros Hidle Htk Hacc Hskip Hans Hok. cbn zeta.
  rewrite (request_ready as_T method path options c tk Hidle Htk Hacc Hskip).
  destruct (preflight_idle options c Hidle) as (_ & Htok & _ & Hrl).
  destruct (dispatch_run env as_T (request_url path options)
              (authorized_init method options tk)
              (after_preflight env config options c)) as (Htok' & _ & _ & Hrl').
  rewrite dispatch_result, Hans in *. cbn [dispatch_outcome]. rewrite Hok.
  split; [reflexivity|]. split.
  - rewrite Hrl', Hrl. reflexivity.
  - rewrite Htok', Htok. exact Htk.
Qed.

(** X5: with [skipAuth] the request reads neither the tokens nor the
    clock: it makes its one network call with the default content type and
    the caller's headers only, so without an [Authorization] header unless
    the caller supplied one, and works without tokens. *)
Theorem request_skipping_auth {T : Type} (as_T : Json -> result T)
    (method : Method) (path : string) (options : RequestOptions.t) (c : Client W) :
  RequestOptions.skipAuth options = Some true ->
  let init := init_of method (base_headers options) options in
  let run := request env config as_T method path options c in
  fst run = dispatch_outcome as_T
              (fst (fetch env (request_url path options) init (world c)))
  /\ trace (snd run) = (trace c ++ [Fetched (request_url path options) init])%list
  /\ world (snd run) = snd (fetch env (request_url path options) init (world c))
  /\ tokens (snd run) = tokens c
  /\ (RequestOptions.headers options = None ->
      RequestInit.headers init = [("Content-Type", "application/json")]).
Proof.
  intros Hskip. cbn zeta.
  assert (Hrun : request env config as_T method path options c
                 = dispatch env as_T (request_url path options)
                     (init_of method (base_headers options) options) c).
  { rewrite request_steps. unfold bind at 1.
    rewrite preflight_off
      by (rewrite Hskip; cbn; rewrite andb_false_r; reflexivity).
    unfold build_headers, bind, ret. rewrite Hskip. reflexivity. }
  rewrite Hrun.
  destruct (dispatch_run env as_T (request_url path options)
              (init_of method (base_headers options) options) c)
    as (Htok & Htr & Hw & _).
  rewrite dispatch_result. repeat split; try assumption.
  intros Hnone. unfold init_of, base_headers. rewrite Hnone. reflexivity.
Qed.

End ReadyRequests.

(** ** Token calls: failures and side effects *)

Section TokenCallEdges.

Context {W : Type} (env : Environment W) (config : Config W).

Lemma exchange_rejected (code : string) (c : Client W) (e : exn) :
  fst (fetch env token_url (exchange_init config code) (world c)) = Throw e ->
  fst (exchangeAuthorizationCode env config code c) = Throw (rethrown e).
Proof.
  intros He.
  unfold exchangeAuthorizationCode, try_catch, bind, await_fetch.
  fold token_url. fold (exchange_init config code).
  destruct (fetch env token_url (exchange_init config code) (world c)) as [r w].
  cbn [fst] in He. subst r. rewrite catch_timeout_rethrown. reflexivity.
Qed.

Lemma refresh_rejected (arg : option string) (c : Client W) (t : string) (e : exn) :
  token_to_refresh arg c = Some t -> t <> "" ->
  fst (fetch env token_url (refresh_init config t) (world c)) = Throw e ->
  fst (refreshAccessToken env config arg c) = Throw (rethrown e).
Proof.
  intros Ht Hne He.
  assert (Htruthy : Js.truthy t = true).
  { unfold Js.truthy. destruct (String.eqb_spec t ""); [contradiction|reflexivity]. }
  unfold refreshAccessToken, bind at 1, this_tokens.
  unfold token_to_refresh in Ht. rewrite Ht, Htruthy. cbn [negb].
  unfold try_catch, bind, await_fetch.
  fold token_url. fold (refresh_init config t).
  destruct (fetch env token_url (refresh_init config t) (world c)) as [r w].
  cbn [fst] in He. subst r. rewrite catch_timeout_rethrown. reflexivity.
Qed.

(** X6: when [fetch] rejects during a token call, the call throws the
    timeout error if the rejection is an [AbortError] and the rejection
    itself otherwise (a [TypeError] of the network is not turned into a
    network error here, unlike in [request]); the held tokens stay. *)
Theorem token_call_network_failure (e : exn) :
  (forall code c,
     fst (fetch env token_url (exchange_init config code) (world c)) = Throw e ->
     fst (exchangeAuthorizationCode env config code c)
     = Throw (if isAbortError e then StravaNetworkError "Request timed out" else e)
     /\ tokens (snd (exchangeAuthorizationCode env config code c)) = tokens c)
  /\ (forall arg c t,
        token_to_refresh arg c = Some t -> t <> "" ->
        fst (fetch env token_url (refresh_init config t) (world c)) = Throw e ->
        fst (refreshAccessToken env config arg c)
        = Throw (if isAbortError e then StravaNetworkError "Request timed out" else e)
        /\ tokens (snd (refreshAccessToken env config arg c)) = tokens c).
Proof.
  split.
  - intros code c He.
    pose proof (exchange_rejected code c e He) as Hr.
    split; [exact Hr|].
    destruct (exchange_run env config code c) as (_ & _ & _ & _ & Hkeep).
    apply (Hkeep _ Hr).
  - intros arg c t Ht Hne He.
    split; [apply (refresh_rejected arg c t e Ht Hne He)|].
    destruct (refresh_run env config arg c t Ht Hne)
      as (_ & [(d & (resp & Hans & _) & _) | (_ & Htok & _)]).
    + rewrite He in Hans. discriminate Hans.
    + exact Htok.
Qed.

(** X7: when the service answered the refresh with new tokens and the
    callback then throws, [refreshAccessToken] throws, but the client
    already holds the new tokens. *)
Theorem refresh_callback_failure_keeps_new_tokens (arg : option string)
    (c : Client W) (t : string) (data : StravaTokenResponse) (e : exn) :
  token_to_refresh arg c = Some t -> t <> "" ->
  answers_with (fst (fetch env token_url (refresh_init config t) (world c))) data ->
  fst (onTokenRefresh config (tokens_of_response data)
         (snd (fetch env token_url (refresh_init config t) (world c)))) = Throw e ->
  (exists e', fst (refreshAccessToken env config arg c) = Throw e')
  /\ tokens (snd (refreshAccessToken env config arg c))
     = Some (tokens_of_response data).
Proof.
  intros Ht Hne Hans Hcb.
  destruct (refresh_run env config arg c t Ht Hne)
    as (_ & [(d & Hans' & Htok & _ & _ & Hr) | (Hnot & _)]).
  - pose proof (answers_with_unique _ _ _ Hans Hans') as ->.
    rewrite Hcb in Hr. split; [eauto | exact Htok].
  - exfalso. exact (Hnot data Hans).
Qed.

(** X8: the token calls never touch the rate limit information, whatever
    headers the responses of the token endpoint carry. *)
Theorem token_calls_leave_rate_limit (c : Client W) :
  (forall code,
     rateLimitInfo (snd (exchangeAuthorizationCode env config code c))
     = rateLimitInfo c)
  /\ (forall arg,
        rateLimitInfo (snd (refreshAccessToken env config arg c))
        = rateLimitInfo c).
Proof.
  split.
  - intros code. destruct (exchange_run env config code c) as (_ & _ & H & _).
    exact H.
  - intros arg.
    destruct (token_to_refresh_cases arg c) as [Hnone | (t & Ht & Hne)].
    + rewrite (refresh_stops_without_token env config arg c Hnone). reflexivity.
    + destruct (refresh_run env config arg c t Ht Hne) as (H & _). exact H.
Qed.

(** X9: a non-empty argument of [refreshAccessToken] is the refresh token
    that is sent, whether other tokens are held or none: the call posts to
    the token endpoint a body whose [refresh_token] is the argument, and a
    token response leaves the client holding the new tokens. *)
Theorem refresh_with_argument (s : string) (c : Client W) :
  s <> "" ->
  let answer := fetch env token_url (refresh_init config s) (world c) in
  let c' := snd (refreshAccessToken env config (Some s) c) in
  (exists rest,
      trace c' = (trace c ++ Fetched token_url (refresh_init config s) :: rest)%list)
  /\ RequestInit.method (refresh_init config s) = POST
  /\ RequestInit.body (refresh_init config s)
     = Some [("client_id", clientId config);
             ("client_secret", clientSecret config);
             ("grant_type", "refresh_token");
             ("refresh_token", s)]
  /\ (forall data, answers_with (fst answer) data ->
        tokens c' = Some (tokens_of_response data)).
Proof.
  intros Hne. cbn zeta.
  assert (Ht : token_to_refresh (Some s) c = Some s).
  { unfold token_to_refresh, Js.truthy.
    destruct (String.eqb_spec s ""); [contradiction | reflexivity]. }
  destruct (refresh_run env config (Some s) c s Ht Hne)
    as (_ & [(d & Hans & Htok & Htr & _) | (Hnot & _ & Htr & _)]).
  - split; [eexists; exact Htr|]. split; [reflexivity|]. split; [reflexivity|].
    intros data Hdata.
    rewrite (answers_with_unique _ _ _ Hdata Hans). exact Htok.
  - split; [eexists; exact Htr|]. split; [reflexivity|]. split; [reflexivity|].
    intros data Hdata. exfalso. exact (Hnot data Hdata).
Qed.

End TokenCallEdges.

(** ** Introspection *)

Section Introspection.

Context {W : Type} (env : Environment W) (config : Config W).

(** X10: [testConnection] never throws: it returns [true] exactly when
    [getAthlete] returns, leaves the client as [getAthlete] leaves it, and
    without tokens returns [false] without reaching the network. *)
Theorem testConnection_never_throws (c : Client W) :
  exists b,
    fst (testConnection env config c) = Ok b
    /\ (b = true <-> exists a, fst (getAthlete env config c) = Ok a)
    /\ snd (testConnection env config c) = snd (getAthlete env config c)
    /\ (tokens c = None -> testConnection env config c = (Ok false, c)).
Proof.
  unfold testConnection, try_catch, bind, ret.
  pose proof (request_stops_without_tokens env config as_any GET "/athlete"
                RequestOptions.empty c) as Hstop.
  fold (getAthlete env config c) in Hstop.
  destruct (getAthlete env config c) as [[a|e] c1]; cbn [fst snd].
  - exists true. repeat split; eauto.
    intros Hnone. specialize (Hstop Hnone eq_refl). discriminate Hstop.
  - exists false. repeat split; try discriminate.
    + intros (a & Ha). discriminate Ha.
    + intros Hnone. specialize (Hstop Hnone eq_refl). inversion Hstop. reflexivity.
Qed.


(** X12: with authentication on, a positive refresh buffer and a held
    token, a request that needs no refresh carries a token that
    [hasValidTokens] accepts at that reading of the clock. *)
Theorem unrefreshed_token_is_valid (c : Client W) (tk : StravaTokens) :
  autoRefresh config = true ->
  0 < refreshBuffer config ->
  tokens c = Some tk ->
  needs_no_refresh env config c ->
  fst (hasValidTokens env c) = Ok true.
Proof.
  intros Hauto Hbuf Htk [Hoff | Hfresh]; [congruence|].
  specialize (Hfresh tk Htk).
  unfold hasValidTokens, now_seconds, Date_now, bind, this_tokens, ret.
  rewrite Htk.
  destruct (date_now env (world c)) as [ms w]. cbn [fst snd] in *.
  f_equal. apply Z.ltb_lt. lia.
Qed.

(** X13: a client constructed without a redirect URI, or with the empty
    one, cannot build an authorization URL: [getAuthorizationUrl] throws
    the validation error for every scope and every option. *)
Theorem getAuthorizationUrl_needs_redirectUri (given : StravaClientConfig W)
    (scope : option string) (options : option AuthorizationUrlOptions.t) :
  config_redirectUri given = None \/ config_redirectUri given = Some "" ->
  getAuthorizationUrl (constructor given) scope options
  = Throw (StravaValidationError "Redirect URI is required for OAuth flow").
Proof.
  intros [H | H]; unfold getAuthorizationUrl, constructor; cbn [redirectUri];
    rewrite H; reflexivity.
Qed.

(** X14: with a redirect URI the authorization URL is the authorize
    endpoint followed by a query string whose pieces between ampersands
    are, in this order, the client id, the redirect URI, the response type
    [code], the approval prompt ([auto] by default), the scope
    ([activity:read_all] by default) and, only when a non-empty state is
    given, the state; the values are URL-encoded. *)
Theorem getAuthorizationUrl_pieces (scope : option string)
    (options : option AuthorizationUrlOptions.t) :
  redirectUri config <> "" ->
  exists queryString,
    getAuthorizationUrl config scope options
    = Ok ("https://www.strava.com/oauth/authorize?" ++ queryString)
    /\ Js.split "&" queryString
       = List.app
           [ "client_id=" ++ URLSearchParams.encode (clientId config);
             "redirect_uri=" ++ URLSearchParams.encode (redirectUri config);
             "response_type=code";
             "approval_prompt=" ++ approval_of options;
             "scope=" ++ URLSearchParams.encode (scope_of scope) ]
           match state_of options with
           | Some s => ["state=" ++ URLSearchParams.encode s]
           | None => []
           end.
Proof.
  intros Hne. unfold getAuthorizationUrl.
  assert (Ht : Js.truthy (redirectUri config) = true).
  { unfold Js.truthy. destruct (String.eqb_spec (redirectUri config) ""); [contradiction|reflexivity]. }
  rewrite Ht. cbn [negb].
  eexists. split; [reflexivity|].
  rewrite QueryFacts.split_toString.
  2:{ destruct options as [[[s|] p]|]; cbn; try discriminate.
      destruct (Js.truthy s); discriminate. }
  unfold approval_of, state_of, scope_of.
  destruct options as [[[s|] [[]|]]|];
    cbn [AuthorizationUrlOptions.state AuthorizationUrlOptions.approvalPrompt];
    try destruct (Js.truthy s); reflexivity.
Qed.

End Introspection.

(** ** The query string determines the parameters *)

Module EncodingFacts.

Import URLSearchParams.

Lemma hex_digit_code (k : nat) :
  (k < 16)%nat ->
  nat_of_ascii (hex_digit k) = if (k <? 10)%nat then (48 + k)%nat else (55 + k)%nat.
Proof.
  intros Hk. unfold hex_digit.
  destruct (k <? 10)%nat; apply nat_ascii_embedding; lia.
Qed.

Lemma hex_digit_inj (a b : nat) :
  (a < 16)%nat -> (b < 16)%nat -> hex_digit a = hex_digit b -> a = b.
Proof.
  intros Ha Hb H. apply (f_equal nat_of_ascii) in H.
  rewrite (hex_digit_code a Ha), (hex_digit_code b Hb) in H.
  destruct (Nat.ltb_spec a 10), (Nat.ltb_spec b 10); lia.
Qed.

Lemma code_inj (c1 c2 : ascii) : Js.code c1 = Js.code c2 -> c1 = c2.
Proof.
  unfold Js.code. intros H.
  rewrite <- (ascii_nat_embedding c1), <- (ascii_nat_embedding c2), H.
  reflexivity.
Qed.

Lemma code_bound (c : ascii) : (Js.code c < 256)%nat.
Proof.
  apply nat_ascii_bounded.
Qed.

Lemma percent_inj (c1 c2 : ascii) :
  hex_digit (Js.code c1 / 16) = hex_digit (Js.code c2 / 16) ->
  hex_digit (Js.code c1 mod 16) = hex_digit (Js.code c2 mod 16) ->
  c1 = c2.
Proof.
  intros Hhi Hlo. apply code_inj.
  pose proof (code_bound c1) as B1. pose proof (code_bound c2) as B2.
  apply hex_digit_inj in Hhi;
    [|apply Nat.Div0.div_lt_upper_bound; lia..].
  apply hex_digit_inj in Hlo; [|apply Nat.mod_upper_bound; lia..].
  rewrite (Nat.div_mod_eq (Js.code c1) 16), (Nat.div_mod_eq (Js.code c2) 16).
  rewrite Hhi, Hlo. reflexivity.
Qed.

(** The code of one byte determines the byte and where the code ends. *)
Lemma encode_byte_cons_inj (c1 c2 : ascii) (r1 r2 : string) :
  encode_byte c1 ++ r1 = encode_byte c2 ++ r2 -> c1 = c2 /\ r1 = r2.
Proof.
  unfold encode_byte.
  destruct (is_plain c1) eqn:P1, (is_plain c2) eqn:P2;
    try destruct (Ascii.eqb_spec c1 " ") as [E1|N1];
    try destruct (Ascii.eqb_spec c2 " ") as [E2|N2];
    cbn; intros H; inversion H; subst; try (split; reflexivity);
    try (vm_compute in P1; discriminate P1);
    try (vm_compute in P2; discriminate P2).
  match goal with
  | Hhi : hex_digit _ = hex_digit _, Hlo : hex_digit _ = hex_digit _ |- _ =>
      pose proof (percent_inj c1 c2 Hhi Hlo) as ->
  end.
  split; reflexivity.
Qed.

Lemma encode_byte_nonempty (c : ascii) (r : string) : encode_byte c ++ r <> "".
Proof.
  unfold encode_byte.
  destruct (is_plain c); [discriminate|].
  destruct (Ascii.eqb c " "); discriminate.
Qed.

Lemma encode_inj (s1 s2 : string) : encode s1 = encode s2 -> s1 = s2.
Proof.
  revert s2. induction s1 as [|c1 r1 IH]; intros [|c2 r2]; cbn [encode]; intros H.
  - reflexivity.
  - symmetry in H. apply encode_byte_nonempty in H. contradiction.
  - apply encode_byte_nonempty in H. contradiction.
  - apply encode_byte_cons_inj in H. destruct H as [-> H].
    rewrite (IH r2 H). reflexivity.
Qed.

Lemma encode_byte_free_equals (c : ascii) : free_of "=" (encode_byte c).
Proof.
  unfold free_of.
  destruct c as [[] [] [] [] [] [] [] []]; vm_compute; intuition congruence.
Qed.

Lemma encode_free_equals (s : string) : free_of "=" (encode s).
Proof.
  induction s as [|c r IH]; cbn [encode].
  - intros [].
  - apply JsFacts.free_of_app; [apply encode_byte_free_equals | exact IH].
Qed.

Lemma encode_pair_inj (kv1 kv2 : string * string) :
  encode_pair kv1 = encode_pair kv2 -> kv1 = kv2.
Proof.
  destruct kv1 as [k1 v1], kv2 as [k2 v2]. unfold encode_pair. cbn [fst snd].
  intros H. apply (f_equal (Js.split "=")) in H.
  change (encode k1 ++ "=" ++ encode v1) with (encode k1 ++ String "=" (encode v1)) in H.
  change (encode k2 ++ "=" ++ encode v2) with (encode k2 ++ String "=" (encode v2)) in H.
  rewrite !JsFacts.split_first in H by apply encode_free_equals.
  rewrite !JsFacts.split_free in H by apply encode_free_equals.
  inversion H as [[Hk Hv]].
  apply encode_inj in Hk. apply encode_inj in Hv. subst. reflexivity.
Qed.

Lemma map_encode_pair_inj (p q : URLSearchParams.t) :
  map encode_pair p = map encode_pair q -> p = q.
Proof.
  revert q. induction p as [|kv r IH]; intros [|kv' r']; cbn [map]; intros H;
    try discriminate H; [reflexivity|].
  inversion H as [[Hkv Hr]]. apply encode_pair_inj in Hkv. subst kv'.
  rewrite (IH r' Hr). reflexivity.
Qed.

(** Serialization loses nothing: equal strings come from equal lists. *)
Lemma toString_inj (p q : URLSearchParams.t) : toString p = toString q -> p = q.
Proof.
  intros H.
  pose proof (QueryFacts.toString_truthy p) as Tp.
  pose proof (QueryFacts.toString_truthy q) as Tq.
  rewrite H in Tp. rewrite Tp in Tq.
  destruct p as [|kv r], q as [|kv' r']; try discriminate Tq; [reflexivity|].
  apply (f_equal (Js.split "&")) in H.
  rewrite !QueryFacts.split_toString in H by discriminate.
  apply map_encode_pair_inj. exact H.
Qed.

Lemma append_cancel (a b c : string) : a ++ b = a ++ c -> b = c.
Proof.
  induction a as [|x a IH]; cbn; intros H; [exact H|].
  inversion H. auto.
Qed.

Lemma append_self (a b : string) : a = a ++ b -> b = "".
Proof.
  induction a as [|x a IH]; cbn; intros H; [symmetry; exact H|].
  inversion H. auto.
Qed.

End EncodingFacts.

(** X15: the URL of a request determines its defined parameters: two
    parameter objects sent to the same base URL and path give the same URL
    only if their entries with a defined value, converted to strings, are
    the same names and values in the same order. *)
Theorem request_url_determines_params (path : string)
    (options1 options2 : RequestOptions.t) (params1 params2 : list (string * param)) :
  RequestOptions.params options1 = Some params1 ->
  RequestOptions.params options2 = Some params2 ->
  base_of options1 = base_of options2 ->
  request_url path options1 = request_url path options2 ->
  map stringified (filter is_defined params1)
  = map stringified (filter is_defined params2).
Proof.
  intros H1 H2 Hbase. unfold request_url.
  fold (base_of options1). fold (base_of options2).
  rewrite H1, H2, Hbase, !QueryFacts.searchParams_of_filter, !QueryFacts.toString_truthy.
  set (p := map stringified (filter is_defined params1)).
  set (q := map stringified (filter is_defined params2)).
  set (url := base_of options2 ++ path).
  destruct p as [|kv r] eqn:Ep, q as [|kv' r'] eqn:Eq; intros H.
  - reflexivity.
  - exfalso. apply EncodingFacts.append_self in H. discriminate H.
  - exfalso. symmetry in H. apply EncodingFacts.append_self in H. discriminate H.
  - apply EncodingFacts.append_cancel in H. inversion H as [Hq].
    apply EncodingFacts.toString_inj. exact Hq.
Qed.

(** ** Stream keys *)




(** ** Pagination: failures and pages that never end *)

Section PaginationEdges.

Context {W : Type} (env : Environment W) (config : Config W).

Variable options : GetActivitiesOptions.

Local Abbreviation perPage := (number_or (per_page options) 200).

Lemma loop_fails (k : Z) (c c1 c2 : Client W) (ps : list (list StravaActivity))
    (e : exn) :
  full_pages env config options k c ps c1 ->
  getActivities env config
    (page_options options (k + Z.of_nat (List.length ps)) perPage) c1
  = (Throw e, c2) ->
  forall (fuel : nat) (acc : list StravaActivity),
    (List.length ps < fuel)%nat ->
    getAllActivities_loop env config fuel options perPage k acc c = (Throw e, c2).
Proof.
  induction 1 as [k c | k c c1' c1 p ps Hget Hmore Hrest IH];
    intros Hfail fuel acc Hfuel; (destruct fuel as [|fuel]; [cbn in Hfuel; lia|]);
    cbn [getAllActivities_loop]; unfold bind.
  - cbn [List.length Z.of_nat] in Hfail. rewrite Z.add_0_r in Hfail.
    rewrite Hfail. reflexivity.
  - rewrite Hget.
    destruct (proj2 (is_last_tests options p) Hmore) as [H0 Hge]. rewrite H0, Hge.
    apply IH; [|cbn in Hfuel; lia].
    replace (k + 1 + Z.of_nat (List.length ps))
      with (k + Z.of_nat (List.length (p :: ps))) by (cbn [List.length]; lia).
    exact Hfail.
Qed.

(** X17: when a page request of [getAllActivities] throws, after any
    number of pages that did not end the loop, the whole call throws that
    error: the pages collected so far are not returned, and the client is
    left as the failed request left it. *)
Theorem getAllActivities_page_failure (c c1 c2 : Client W)
    (ps : list (list StravaActivity)) (e : exn) :
  full_pages env config options 1 c ps c1 ->
  getActivities env config
    (page_options options (1 + Z.of_nat (List.length ps)) perPage) c1
  = (Throw e, c2) ->
  forall fuel, (List.length ps < fuel)%nat ->
    getAllActivities env config fuel options c = (Throw e, c2).
Proof.
  intros Hfull Hfail fuel Hfuel. unfold getAllActivities.
  apply (loop_fails 1 c c1 c2 ps e Hfull Hfail fuel [] Hfuel).
Qed.

Lemma loop_runs_on (P : Client W -> Prop) :
  (forall k c, 1 <= k -> P c ->
     exists p c1,
       getActivities env config (page_options options k perPage) c = (Ok p, c1)
       /\ ~ is_last options p /\ P c1) ->
  forall (fuel : nat) (k : Z) (acc : list StravaActivity) (c : Client W),
    1 <= k -> P c ->
    fst (getAllActivities_loop env config fuel options perPage k acc c) = Ok None.
Proof.
  intros Hstep. induction fuel as [|fuel IH]; intros k acc c Hk HP; [reflexivity|].
  cbn [getAllActivities_loop]. unfold bind.
  destruct (Hstep k c Hk HP) as (p & c1 & Hget & Hmore & HP1). rewrite Hget.
  destruct (proj2 (is_last_tests options p) Hmore) as [H0 Hge]. rewrite H0, Hge.
  apply IH; [lia | exact HP1].
Qed.

(** X18: the loop of [getAllActivities] has no bound of its own: against a
    service that answers every page request with a page that is neither
    empty nor shorter than the page size, it is still running after any
    number of iterations. *)
Theorem getAllActivities_runs_on (P : Client W -> Prop) (c : Client W) :
  P c ->
  (forall k c0, 1 <= k -> P c0 ->
     exists p c1,
       getActivities env config (page_options options k perPage) c0 = (Ok p, c1)
       /\ ~ is_last options p /\ P c1) ->
  forall fuel, fst (getAllActivities env config fuel options c) = Ok None.
Proof.
  intros HP Hstep fuel. unfold getAllActivities.
  apply (loop_runs_on P Hstep fuel 1 [] c); [lia | exact HP].
Qed.

End PaginationEdges.

(** ** Rate limits and logout *)

Section AfterRequests.

Context {W : Type} (env : Environment W) (config : Config W).

(** X19: the rate limit information is that of the latest response that
    carried it, for failed requests as for successful ones: after a request
    whose response, of whatever status, has the limit header [a,b] and the
    usage header [u,v], [getRateLimitInfo] returns these four numbers,
    whatever was held before. *)
Theorem request_records_rate_limit {T : Type} (as_T : Json -> result T)
    (method : Method) (path : string) (options : RequestOptions.t)
    (c : Client W) (tk : StravaTokens) (response : Response.t) (a b u v : N) :
  needs_no_refresh env config c ->
  tokens c = Some tk ->
  accessToken tk <> "" ->
  is_true (RequestOptions.skipAuth options) = false ->
  fst (fetch env (request_url path options) (authorized_init method options tk)
         (world (after_preflight env config options c))) = Ok response ->
  Headers.get "x-ratelimit-limit" (Response.headers response)
    = Some (Js.decimal_digits a ++ "," ++ Js.decimal_digits b) ->
  Headers.get "x-ratelimit-usage" (Response.headers response)
    = Some (Js.decimal_digits u ++ "," ++ Js.decimal_digits v) ->
  fst (getRateLimitInfo (snd (request env config as_T method path options c)))
  = Ok (Some {| shortTerm := {| usage := Some (Js.of_N u); limit := Some (Js.of_N a) |};
                longTerm := {| usage := Some (Js.of_N v); limit := Some (Js.of_N b) |} |}).
Proof.
  intros Hidle Htk Hacc Hskip Hans Hl Hu.
  rewrite (request_ready env config as_T method path options c tk Hidle Htk Hacc Hskip).
  destruct (dispatch_run env as_T (request_url path options)
              (authorized_init method options tk)
              (after_preflight env config options c)) as (_ & _ & _ & Hrl).
  rewrite Hans in Hrl. unfold getRateLimitInfo. cbn [fst]. rewrite Hrl.
  unfold updateRateLimitInfo_pure. rewrite Hl, Hu.
  rewrite !JsFacts.append_comma_truthy. cbn [andb]. unfold number_pair.
  rewrite !JsFacts.split_pair by apply JsFacts.decimal_digits_comma_free.
  cbn [map nth_error]. rewrite !JsFacts.Number_decimal_digits. reflexivity.
Qed.

(** X20: after a [deauthorize] that returned, the client is logged out:
    no tokens are held, [hasValidTokens] is false, and every further
    authenticated request throws the validation error without reaching the
    network. *)
Theorem deauthorize_logs_out (c : Client W) :
  fst (deauthorize env config c) = Ok tt ->
  let c' := snd (deauthorize env config c) in
  tokens c' = None
  /\ hasValidTokens env c' = (Ok false, c')
  /\ (forall (T : Type) (as_T : Json -> result T) method path options,
        is_true (RequestOptions.skipAuth options) = false ->
        request env config as_T method path options c' = (Throw no_access_token, c')).
Proof.
  intros Hok. cbn zeta.
  assert (Hnone : tokens (snd (deauthorize env config c)) = None).
  { revert Hok. unfold deauthorize, bind, clearTokens, assign_tokens.
    destruct (request env config as_void POST "/oauth/deauthorize"
                RequestOptions.empty c) as [[[]|e] c1]; cbn; [reflexivity|discriminate]. }
  split; [exact Hnone|]. split.
  - unfold hasValidTokens, bind, this_tokens, ret. rewrite Hnone. reflexivity.
  - intros T as_T method path options Hskip.
    apply request_stops_without_tokens; assumption.
Qed.

End AfterRequests.

(** ** More concrete runs *)

Lemma fresh_client_needs_no_refresh (answers : list (result Response.t)) :
  needs_no_refresh scripted_env plain_config (fresh_client answers).
Proof.
  right. intros tk H. inversion H. vm_compute. discriminate.
Qed.

Lemma fresh_access_token : accessToken fresh_tokens <> "".
Proof.
  discriminate.
Qed.

Lemma endpoints_stop_without_tokens_witness :
  getAthlete scripted_env plain_config (scripted_client None None now_ms [])
  = (Throw no_access_token, scripted_client None None now_ms []).
Proof.
  exact (proj1 (endpoints_stop_without_tokens scripted_env plain_config
                  (scripted_client None None now_ms []) eq_refl)).
Defined.

Lemma request_without_refresh_witness :
  let c := fresh_client [Ok (json_response 200 [] (JRaw "athlete"))] in
  let c' := snd (request scripted_env plain_config as_any GET "/athlete"
                   RequestOptions.empty c) in
  exists init,
    trace c' = (trace c ++ [Fetched (request_url "/athlete" RequestOptions.empty) init])%list
    /\ RequestInit.method init = GET
    /\ RequestInit.body init = RequestOptions.body RequestOptions.empty
    /\ Obj.get "Authorization" (RequestInit.headers init)
       = Some ("Bearer " ++ accessToken fresh_tokens)
    /\ tokens c' = Some fresh_tokens.
Proof.
  exact (request_without_refresh scripted_env plain_config as_any GET "/athlete"
           RequestOptions.empty
           (fresh_client [Ok (json_response 200 [] (JRaw "athlete"))]) fresh_tokens
           (fresh_client_needs_no_refresh _) eq_refl fresh_access_token eq_refl).
Defined.

Lemma request_network_failure_witness :
  let run := request scripted_env plain_config as_any GET "/athlete"
               RequestOptions.empty (fresh_client [Throw timeout]) in
  fst run = Throw (network_error timeout)
  /\ tokens (snd run) = Some fresh_tokens
  /\ rateLimitInfo (snd run) = rateLimitInfo (fresh_client [Throw timeout]).
Proof.
  exact (proj1 (request_network_failure scripted_env plain_config as_any GET
                  "/athlete" RequestOptions.empty (fresh_client [Throw timeout])
                  fresh_tokens (fresh_client_needs_no_refresh _) eq_refl
                  fresh_access_token eq_refl)
           timeout eq_refl).
Defined.

Lemma request_http_failure_witness :
  let run := request scripted_env plain_config as_any GET "/athlete"
               RequestOptions.empty (fresh_client [Ok throttled]) in
  fst run = Throw (parseStravaError 429 (JRaw "Rate Limit Exceeded")
                     (Response.headers throttled) None)
  /\ rateLimitInfo (snd run)
     = updateRateLimitInfo_pure (Response.headers throttled) None
  /\ tokens (snd run) = Some fresh_tokens.
Proof.
  exact (request_http_failure scripted_env plain_config as_any GET "/athlete"
           RequestOptions.empty (fresh_client [Ok throttled]) fresh_tokens throttled
           (fresh_client_needs_no_refresh _) eq_refl fresh_access_token eq_refl
           eq_refl eq_refl).
Defined.

Lemma request_skipping_auth_witness :
  let c := scripted_client None None now_ms [Ok (json_response 200 [] (JRaw "ok"))] in
  let init := init_of GET (base_headers skipping_auth) skipping_auth in
  let run := request scripted_env plain_config as_any GET "/status" skipping_auth c in
  fst run = dispatch_outcome as_any
              (fst (fetch scripted_env (request_url "/status" skipping_auth) init
                      (world c)))
  /\ trace (snd run) = (trace c ++ [Fetched (request_url "/status" skipping_auth) init])%list
  /\ world (snd run)
     = snd (fetch scripted_env (request_url "/status" skipping_auth) init (world c))
  /\ tokens (snd run) = tokens c
  /\ (RequestOptions.headers skipping_auth = None ->
      RequestInit.headers init = [("Content-Type", "application/json")]).
Proof.
  exact (request_skipping_auth scripted_env plain_config as_any GET "/status"
           skipping_auth
           (scripted_client None None now_ms [Ok (json_response 200 [] (JRaw "ok"))])
           eq_refl).
Defined.

Lemma held_refresh_token : "old-refresh" <> "".
Proof.
  discriminate.
Qed.

Lemma token_response_answers :
  answers_with
    (fst (fetch scripted_env token_url (refresh_init failing_callback "old-refresh")
            (world (token_client (Some held_tokens)))))
    token_response.
Proof.
  eexists. repeat split.
Qed.

Lemma refresh_callback_failure_keeps_new_tokens_witness :
  (exists e', fst (refreshAccessToken scripted_env failing_callback None
                     (token_client (Some held_tokens))) = Throw e')
  /\ tokens (snd (refreshAccessToken scripted_env failing_callback None
                    (token_client (Some held_tokens))))
     = Some (tokens_of_response token_response).
Proof.
  exact (refresh_callback_failure_keeps_new_tokens scripted_env failing_callback
           None (token_client (Some held_tokens)) "old-refresh" token_response
           (Thrown PlainError "Error" "disk full")
           eq_refl held_refresh_token token_response_answers eq_refl).
Defined.

Lemma given_refresh_token : "given-refresh" <> "".
Proof.
  discriminate.
Qed.

Lemma refresh_with_argument_witness :
  let c := token_client (Some held_tokens) in
  let answer := fetch scripted_env token_url
                  (refresh_init plain_config "given-refresh") (world c) in
  let c' := snd (refreshAccessToken scripted_env plain_config
                   (Some "given-refresh") c) in
  (exists rest,
      trace c' = (trace c ++ Fetched token_url
                               (refresh_init plain_config "given-refresh") :: rest)%list)
  /\ RequestInit.method (refresh_init plain_config "given-refresh") = POST
  /\ RequestInit.body (refresh_init plain_config "given-refresh")
     = Some [("client_id", clientId plain_config);
             ("client_secret", clientSecret plain_config);
             ("grant_type", "refresh_token");
             ("refresh_token", "given-refresh")]
  /\ (forall data, answers_with (fst answer) data ->
        tokens c' = Some (tokens_of_response data)).
Proof.
  exact (refresh_with_argument scripted_env plain_config "given-refresh"
           (token_client (Some held_tokens)) given_refresh_token).
Defined.

Lemma unrefreshed_token_is_valid_witness :
  fst (hasValidTokens scripted_env (fresh_client [])) = Ok true.
Proof.
  exact (unrefreshed_token_is_valid scripted_env plain_config (fresh_client [])
           fresh_tokens eq_refl eq_refl eq_refl (fresh_client_needs_no_refresh _)).
Defined.

Lemma getAuthorizationUrl_needs_redirectUri_witness :
  getAuthorizationUrl (constructor no_redirect) None None
  = Throw (StravaValidationError "Redirect URI is required for OAuth flow").
Proof.
  exact (getAuthorizationUrl_needs_redirectUri no_redirect None None
           (or_introl eq_refl)).
Defined.

Lemma redirect_given : redirectUri with_redirect <> "".
Proof.
  discriminate.
Qed.

Lemma getAuthorizationUrl_pieces_witness :
  exists queryString,
    getAuthorizationUrl with_redirect None (Some forced_with_state)
    = Ok ("https://www.strava.com/oauth/authorize?" ++ queryString)
    /\ Js.split "&" queryString
       = ["client_id=12345";
          "redirect_uri=https%3A%2F%2Fexample.com%2Fcb%3Fx%3D1";
          "response_type=code";
          "approval_prompt=force";
          "scope=activity%3Aread_all";
          "state=a+b"].
Proof.
  exact (getAuthorizationUrl_pieces with_redirect None (Some forced_with_state)
           redirect_given).
Defined.

Lemma request_url_determines_params_witness :
  map stringified (filter is_defined [("after", PUndefined); ("page", PNumber 2)])
  = map stringified (filter is_defined [("page", PString "2")]).
Proof.
  exact (request_url_determines_params "/athlete/activities"
           (params_only [("after", PUndefined); ("page", PNumber 2)])
           (params_only [("page", PString "2")])
           [("after", PUndefined); ("page", PNumber 2)] [("page", PString "2")]
           eq_refl eq_refl eq_refl eq_refl).
Defined.

Lemma token_call_network_failure_witness :
  fst (exchangeAuthorizationCode scripted_env plain_config "code"
         (scripted_client None None now_ms []))
  = Throw (Thrown TypeError "TypeError" "fetch failed")
  /\ tokens (snd (exchangeAuthorizationCode scripted_env plain_config "code"
                    (scripted_client None None now_ms []))) = None.
Proof.
  exact (proj1 (token_call_network_failure scripted_env plain_config
                  (Thrown TypeError "TypeError" "fetch failed"))
           "code" (scripted_client None None now_ms []) eq_refl).
Defined.

Lemma testConnection_never_throws_witness :
  exists b,
    fst (testConnection scripted_env plain_config (fresh_client [Ok server_error]))
    = Ok b
    /\ (b = true <->
        exists a, fst (getAthlete scripted_env plain_config
                         (fresh_client [Ok server_error])) = Ok a)
    /\ snd (testConnection scripted_env plain_config (fresh_client [Ok server_error]))
       = snd (getAthlete scripted_env plain_config (fresh_client [Ok server_error]))
    /\ (tokens (fresh_client [Ok server_error]) = None ->
        testConnection scripted_env plain_config (fresh_client [Ok server_error])
        = (Ok false, fresh_client [Ok server_error])).
Proof.
  exact (testConnection_never_throws scripted_env plain_config
           (fresh_client [Ok server_error])).
Defined.



Lemma getAllActivities_page_failure_witness :
  getAllActivities scripted_env plain_config 5 two_per_page failing_pages
  = (Throw (StravaHttpError 500 (JRaw "Internal Server Error") [] None),
     snd (getAllActivities scripted_env plain_config 5 two_per_page failing_pages)).
Proof.
  assert (Hfull : full_pages scripted_env plain_config two_per_page 1 failing_pages
                    [[activity 1; activity 2]]
                    (snd (getActivities scripted_env plain_config
                            (page_options two_per_page 1 2) failing_pages))).
  { eapply full_more; [vm_compute; reflexivity | unfold is_last; cbn; lia |].
    apply full_none. }
  refine (getAllActivities_page_failure scripted_env plain_config two_per_page
            failing_pages _ _ [[activity 1; activity 2]] _ Hfull _ 5%nat _).
  - vm_compute. reflexivity.
  - cbn. lia.
Defined.

Lemma endless_step (k : Z) (c0 : Client unit) :
  1 <= k -> tokens c0 = Some fresh_tokens ->
  exists p c1,
    getActivities endless_env manual_config
      (page_options two_per_page k (number_or (per_page two_per_page) 200)) c0
    = (Ok p, c1)
    /\ ~ is_last two_per_page p /\ tokens c1 = Some fresh_tokens.
Proof.
  intros _ Htok. unfold getActivities.
  set (opts := page_options two_per_page k (number_or (per_page two_per_page) 200)).
  pose proof (request_ready endless_env manual_config as_activities GET
                "/athlete/activities" (params_only (activities_params opts)) c0
                fresh_tokens (or_introl eq_refl) Htok fresh_access_token eq_refl)
    as Hrun.
  pose proof (preflight_idle endless_env manual_config
                (params_only (activities_params opts)) c0 (or_introl eq_refl))
    as (_ & Hkeep & _).
  unfold params_only in Hrun, Hkeep. rewrite Hrun.
  set (c1 := after_preflight _ _ _ _) in *.
  unfold dispatch, try_catch, bind, await_fetch, updateRateLimitInfo, lift.
  cbn [endless_env fetch fst snd Response.ok Response.json Response.headers negb
       as_activities].
  eexists. eexists. split; [reflexivity|]. split.
  - unfold is_last. cbn. lia.
  - cbn [tokens with_world log]. rewrite Hkeep. exact Htok.
Qed.

Lemma getAllActivities_runs_on_witness :
  fst (getAllActivities endless_env manual_config 1000 two_per_page endless_client)
  = Ok None.
Proof.
  exact (getAllActivities_runs_on endless_env manual_config two_per_page
           (fun c => tokens c = Some fresh_tokens) endless_client eq_refl
           endless_step 1000%nat).
Defined.

Lemma request_records_rate_limit_witness :
  fst (getRateLimitInfo
         (snd (request scripted_env plain_config as_any GET "/athlete"
                 RequestOptions.empty (fresh_client [Ok throttled]))))
  = Ok (Some {| shortTerm := {| usage := Some (Js.of_N 100); limit := Some (Js.of_N 100) |};
                longTerm := {| usage := Some (Js.of_N 250); limit := Some (Js.of_N 1000) |} |}).
Proof.
  exact (request_records_rate_limit scripted_env plain_config as_any GET "/athlete"
           RequestOptions.empty (fresh_client [Ok throttled]) fresh_tokens throttled
           100 1000 100 250
           (fresh_client_needs_no_refresh _) eq_refl fresh_access_token eq_refl
           eq_refl eq_refl eq_refl).
Defined.

Lemma deauthorize_logs_out_witness :
  let c' := snd (deauthorize scripted_env plain_config revoked_client) in
  tokens c' = None
  /\ hasValidTokens scripted_env c' = (Ok false, c')
  /\ (forall (T : Type) (as_T : Json -> result T) method path options,
        is_true (RequestOptions.skipAuth options) = false ->
        request scripted_env plain_config as_T method path options c'
        = (Throw no_access_token, c')).
Proof.
  exact (deauthorize_logs_out scripted_env plain_config revoked_client eq_refl).
Defined.
